(** * CSV ingestion and validation pipeline of [src/components/CSVUpload.tsx]

    A shallow embedding of [validateCSVContent], [sanitizeCell] and
    [processFile], together with the part of the JavaScript runtime these
    functions rely on: strings as sequences of UTF-16 code units, the
    backtracking regular-expression matcher with its [lastIndex] state,
    [String.prototype.trim], [endsWith] and [Array.prototype.slice]. *)

From Stdlib Require Import Ascii String DecimalString DecimalN.
From Stdlib Require Import List NArith ZArith Bool Arith Lia.
Import ListNotations.

Set Implicit Arguments.

(** ** JavaScript strings *)

(** A JavaScript string is a sequence of UTF-16 code units. *)
Definition codeUnit := N.
Definition jsstring := list codeUnit.

(** String literals of the source are written with [lit]. *)
Fixpoint lit (s : string) : jsstring :=
  match s with
  | EmptyString => []
  | String a r => N_of_ascii a :: lit r
  end.

(** One-character literals, for character tables. *)
Definition chr (s : string) : codeUnit :=
  match s with
  | String a _ => N_of_ascii a
  | EmptyString => 0%N
  end.

Definition inRange (lo hi c : codeUnit) : bool := ((lo <=? c) && (c <=? hi))%N.

(** [Number.prototype.toString] on a non-negative integer. *)
Definition numberToString (n : N) : jsstring :=
  lit (NilEmpty.string_of_uint (N.to_uint n)).

(** The double quote, code unit 34. *)
Definition dquote : jsstring := [34%N].

(** [WhiteSpace] and [LineTerminator] code points of ECMAScript: the set
    removed by [trim] and matched by the class escape [\s]. *)
Definition isWhiteSpace (c : codeUnit) : bool :=
  (inRange 9 13 c || (c =? 32) || (c =? 160) || (c =? 5760)
   || inRange 8192 8202 c || (c =? 8232) || (c =? 8233) || (c =? 8239)
   || (c =? 8287) || (c =? 12288) || (c =? 65279))%N.

(** The 63 word characters of [\w] and [\b]. *)
Definition isWordChar (c : codeUnit) : bool :=
  inRange (chr "a") (chr "z") c || inRange (chr "A") (chr "Z") c
  || inRange (chr "0") (chr "9") c || (c =? chr "_")%N.

(** [Canonicalize] of the matcher when [ignoreCase] is set and [unicode] is
    not: the upper-case mapping of a single code unit.  A code unit of 128
    or more never canonicalises to one below 128, and every character
    written in the patterns of this program is below 128, so only the ASCII
    part of the mapping can decide a comparison; the rest is left as is. *)
Definition canonicalize (ignoreCase : bool) (c : codeUnit) : codeUnit :=
  if ignoreCase && inRange (chr "a") (chr "z") c then (c - 32)%N else c.

Definition lowerCase (c : codeUnit) : codeUnit :=
  if inRange (chr "A") (chr "Z") c then (c + 32)%N else c.

(** ** Regular expressions *)

Inductive classItem :=
| CChar (c : codeUnit)
| CRange (lo hi : codeUnit)
| CSpace
| CWord.

Inductive regex :=
| Empty
| Char (c : codeUnit)
| Class (invert : bool) (items : list classItem)
| Seq (a b : regex)
| Alt (a b : regex)
| Star (a : regex)
| WordBoundary
| Bol
| Eol
| NegLookahead (a : regex).

(** [a+] *)
Definition Plus (a : regex) : regex := Seq a (Star a).

(** A literal run of pattern characters. *)
Fixpoint Str (s : jsstring) : regex :=
  match s with
  | [] => Empty
  | [c] => Char c
  | c :: r => Seq (Char c) (Str r)
  end.

(** A disjunction in source order. *)
Fixpoint AltOf (rs : list regex) : regex :=
  match rs with
  | [] => Class false []
  | [r] => r
  | r :: rest => Alt r (AltOf rest)
  end.

Record RegExp := mkRegExp {
  source : regex;
  global : bool;
  ignoreCase : bool
}.

(** A position of the matcher inside its input: the code unit just before
    the position ([None] at index 0) and the input from the position on. *)
Record mstate := mkState {
  prev : option codeUnit;
  rest : jsstring
}.

Definition startOf (s : jsstring) : mstate := mkState None s.

Definition step (x : mstate) : option mstate :=
  match rest x with
  | [] => None
  | c :: t => Some (mkState (Some c) t)
  end.

Definition itemMatches (ic : bool) (ch : codeUnit) (it : classItem) : bool :=
  match it with
  | CChar c => (canonicalize ic c =? canonicalize ic ch)%N
  | CRange lo hi =>
      inRange lo hi ch
      || (ic && (inRange lo hi (canonicalize ic ch)
                 || inRange lo hi (lowerCase ch)))
  | CSpace => isWhiteSpace ch
  | CWord => isWordChar ch
  end.

Definition classMatches (ic invert : bool) (items : list classItem)
    (ch : codeUnit) : bool :=
  xorb invert (existsb (itemMatches ic ch) items).

Definition wordBefore (x : mstate) : bool :=
  match prev x with Some c => isWordChar c | None => false end.

Definition wordAfter (x : mstate) : bool :=
  match rest x with c :: _ => isWordChar c | [] => false end.

Definition continuation := mstate -> option mstate.
Definition matcher := mstate -> continuation -> option mstate.

(** [RepeatMatcher] for a greedy [*]: an iteration that consumes nothing is
    abandoned.  Every kept iteration shortens the rest of the input, so
    [fuel] starts above its length and is never used up. *)
Fixpoint repeatMatcher (m : matcher) (k : continuation) (fuel : nat)
    (x : mstate) : option mstate :=
  match fuel with
  | O => None
  | S fuel' =>
      match m x (fun y =>
                   if Nat.eqb (length (rest y)) (length (rest x)) then None
                   else repeatMatcher m k fuel' y) with
      | Some z => Some z
      | None => k x
      end
  end.

(** The backtracking matcher, in continuation-passing style as the language
    specification gives it: alternatives left to right, quantifiers greedy. *)
Fixpoint matchRegex (ic : bool) (r : regex) : matcher :=
  match r with
  | Empty => fun x k => k x
  | Char c => fun x k =>
      match rest x with
      | ch :: t =>
          if (canonicalize ic c =? canonicalize ic ch)%N
          then k (mkState (Some ch) t) else None
      | [] => None
      end
  | Class invert items => fun x k =>
      match rest x with
      | ch :: t =>
          if classMatches ic invert items ch
          then k (mkState (Some ch) t) else None
      | [] => None
      end
  | Seq a b => fun x k => matchRegex ic a x (fun y => matchRegex ic b y k)
  | Alt a b => fun x k =>
      match matchRegex ic a x k with
      | Some z => Some z
      | None => matchRegex ic b x k
      end
  | Star a => fun x k =>
      repeatMatcher (matchRegex ic a) k (S (length (rest x))) x
  | WordBoundary => fun x k =>
      if xorb (wordBefore x) (wordAfter x) then k x else None
  | Bol => fun x k =>
      match prev x with None => k x | Some _ => None end
  | Eol => fun x k =>
      match rest x with [] => k x | _ :: _ => None end
  | NegLookahead a => fun x k =>
      match matchRegex ic a x Some with
      | Some _ => None
      | None => k x
      end
  end.

(** The scan of [RegExpBuiltinExec]: try the matcher at the current index,
    and on failure move one code unit to the right. *)
Fixpoint searchRest (ic : bool) (r : regex) (p : option codeUnit)
    (s : jsstring) : option mstate :=
  match matchRegex ic r (mkState p s) Some with
  | Some e => Some e
  | None =>
      match s with
      | [] => None
      | c :: t => searchRest ic r (Some c) t
      end
  end.

Definition searchFrom (ic : bool) (r : regex) (x : mstate) : option mstate :=
  searchRest ic r (prev x) (rest x).

(** The matcher position at index [i] of the input, if [i] is within it. *)
Fixpoint advance (i : nat) (x : mstate) : option mstate :=
  match i with
  | O => Some x
  | S j =>
      match step x with
      | Some y => advance j y
      | None => None
      end
  end.

(** [RegExp.prototype.test]: the result and the value of [lastIndex] the
    regular-expression object is left with.  Without the [g] flag the search
    starts at 0 and [lastIndex] is not written. *)
Definition regexTest (re : RegExp) (lastIndex : nat) (s : jsstring)
    : bool * nat :=
  let start := if global re then lastIndex else O in
  match advance start (startOf s) with
  | None => (false, if global re then O else lastIndex)
  | Some x =>
      match searchFrom (ignoreCase re) (source re) x with
      | None => (false, if global re then O else lastIndex)
      | Some e =>
          (true,
           if global re then length s - length (rest e) else lastIndex)
      end
  end.

(** ** The patterns of [validateCSVContent] *)

(** [/^[a-zA-Z0-9_\s]+$/] *)
Definition headerClass : list classItem :=
  [CRange (chr "a") (chr "z"); CRange (chr "A") (chr "Z");
   CRange (chr "0") (chr "9"); CChar (chr "_"); CSpace].

Definition headerPattern : RegExp :=
  mkRegExp (Seq Bol (Seq (Plus (Class false headerClass)) Eol)) false false.

(** [/(\b(SELECT|INSERT|UPDATE|DELETE|DROP|CREATE|ALTER|EXEC|UNION)\b)|(--|;|\/\*|\*\/|xp_|sp_)/gi] *)
Definition sqlKeywords : list string :=
  ["SELECT"; "INSERT"; "UPDATE"; "DELETE"; "DROP"; "CREATE"; "ALTER";
   "EXEC"; "UNION"]%string.

Definition sqlTokens : list string :=
  ["--"; ";"; "/*"; "*/"; "xp_"; "sp_"]%string.

Definition sqlSource : regex :=
  Alt (Seq WordBoundary
         (Seq (AltOf (map (fun w => Str (lit w)) sqlKeywords)) WordBoundary))
      (AltOf (map (fun w => Str (lit w)) sqlTokens)).

Definition sqlPatterns : RegExp := mkRegExp sqlSource true true.

(** The script pattern, with the flags [gi]; its three alternatives are
    - [<script\b[^<]* (?:(?!<\/script>)<[^<]* )* <\/script>]
      (written here with blanks after the stars, which the source does not
      have),
    - [javascript:],
    - [on\w+\s*=]. *)
Definition notLt : regex := Class true [CChar (chr "<")].

Definition scriptSource : regex :=
  Alt (Seq (Str (lit "<script"))
         (Seq WordBoundary
            (Seq (Star notLt)
               (Seq (Star (Seq (NegLookahead (Str (lit "</script>")))
                             (Seq (Char (chr "<")) (Star notLt))))
                  (Str (lit "</script>"))))))
      (Alt (Str (lit "javascript:"))
           (Seq (Str (lit "on"))
              (Seq (Plus (Class false [CWord]))
                 (Seq (Star (Class false [CSpace])) (Char (chr "=")))))).

Definition scriptPatterns : RegExp := mkRegExp scriptSource true true.

(** ** Library functions used by the component *)

(** [String.prototype.replace] with a global pattern and the empty string as
    replacement: every match, found left to right, is cut out; after an
    empty match the scan moves one code unit on. *)
Fixpoint removeMatches (ic : bool) (r : regex) (fuel : nat)
    (p : option codeUnit) (s : jsstring) : jsstring :=
  match fuel with
  | O => s
  | S fuel' =>
      let keep :=
        match s with
        | [] => []
        | c :: t => c :: removeMatches ic r fuel' (Some c) t
        end in
      match matchRegex ic r (mkState p s) Some with
      | Some e =>
          if Nat.eqb (length (rest e)) (length s) then keep
          else removeMatches ic r fuel' (prev e) (rest e)
      | None => keep
      end
  end.

Definition replaceWithEmpty (re : RegExp) (s : jsstring) : jsstring :=
  removeMatches (ignoreCase re) (source re) (S (length s)) None s.

(** [String.prototype.trim] *)
Fixpoint trimStart (s : jsstring) : jsstring :=
  match s with
  | [] => []
  | c :: t => if isWhiteSpace c then trimStart t else s
  end.

Definition trimEnd (s : jsstring) : jsstring := rev (trimStart (rev s)).

Definition trim (s : jsstring) : jsstring := trimEnd (trimStart s).

Fixpoint jsstringEqb (a b : jsstring) : bool :=
  match a, b with
  | [], [] => true
  | x :: a', y :: b' => (x =? y)%N && jsstringEqb a' b'
  | _, _ => false
  end.

(** [String.prototype.endsWith] with its default end position. *)
Definition endsWith (s search : jsstring) : bool :=
  let start := (Z.of_nat (length s) - Z.of_nat (length search))%Z in
  if (start <? 0)%Z then false
  else jsstringEqb (skipn (Z.to_nat start) s) search.

(** [Array.prototype.slice (start, end)], negative indices counting from
    the end of the array. *)
Definition slice {A : Type} (start end_ : Z) (l : list A) : list A :=
  let len := Z.of_nat (length l) in
  let k := if (start <? 0)%Z then Z.max (len + start) 0 else Z.min start len in
  let final := if (end_ <? 0)%Z then Z.max (len + end_) 0 else Z.min end_ len in
  firstn (Z.to_nat (Z.max (final - k) 0)) (skipn (Z.to_nat k) l).

(** [Array.prototype.forEach] with a callback that receives the element and
    its index; the state the callback closes over is threaded through. *)
Fixpoint forEachFrom {A St : Type} (f : A -> nat -> St -> St) (i : nat)
    (l : list A) (st : St) : St :=
  match l with
  | [] => st
  | a :: t => forEachFrom f (S i) t (f a i st)
  end.

Definition forEach {A St : Type} (f : A -> nat -> St -> St) (l : list A)
    (st : St) : St :=
  forEachFrom f 0 l st.

(** [Number.prototype.toLocaleString] formats with the locale of the host,
    which the component does not choose. *)
Class HostLocale := { toLocaleString : N -> jsstring }.

(** Digit grouping of the [en-US] locale. *)
Fixpoint groupThousands (digits : jsstring) (n : nat) : jsstring :=
  match digits with
  | [] => []
  | d :: t =>
      d :: (if (Nat.eqb (n mod 3) 1 && negb (Nat.eqb n 1))%bool
            then lit "," ++ groupThousands t (n - 1)
            else groupThousands t (n - 1))
  end.

Definition enUS : HostLocale :=
  {| toLocaleString := fun n =>
       let d := numberToString n in groupThousands d (length d) |}.

(** ** The component *)

Definition MAX_FILE_SIZE : N := 10 * 1024 * 1024.
Definition MAX_ROWS : N := 100000.

Record ValidationResult := mkResult {
  isValid : bool;
  errors : list jsstring
}.

(** What the callbacks of the injection scan close over: the [errors] array
    and the [lastIndex] of the two global patterns. *)
Record scanState := mkScan {
  scanErrors : list jsstring;
  sqlLastIndex : nat;
  scriptLastIndex : nat
}.

Definition emptyMessage : jsstring := lit "CSV file is empty".

Definition rowLimitMessage `{HostLocale} : jsstring :=
  lit "CSV exceeds maximum row limit of " ++ toLocaleString MAX_ROWS.

Definition headerMessage (index : nat) (header : jsstring) : jsstring :=
  lit "Invalid header at column " ++ numberToString (N.of_nat (index + 1))
  ++ lit ": " ++ dquote ++ header ++ dquote.

Definition sqlMessage (rowIndex colIndex : nat) : jsstring :=
  lit "Potential SQL injection detected at row "
  ++ numberToString (N.of_nat (rowIndex + 1)) ++ lit ", column "
  ++ numberToString (N.of_nat (colIndex + 1)).

Definition scriptMessage (rowIndex colIndex : nat) : jsstring :=
  lit "Potential script injection detected at row "
  ++ numberToString (N.of_nat (rowIndex + 1)) ++ lit ", column "
  ++ numberToString (N.of_nat (colIndex + 1)).

(** [headerPattern] has no [g] flag: its [test] always starts at 0. *)
Definition checkHeader (header : jsstring) (index : nat)
    (errs : list jsstring) : list jsstring :=
  if negb (fst (regexTest headerPattern 0 header))
  then errs ++ [headerMessage index header]
  else errs.

(** The body of the inner [forEach] of the injection scan. *)
Definition scanCell (rowIndex : nat) (cell : jsstring) (colIndex : nat)
    (st : scanState) : scanState :=
  let cellStr := cell in
  let (sqlHit, sqlLast) := regexTest sqlPatterns (sqlLastIndex st) cellStr in
  let errs1 :=
    if sqlHit then scanErrors st ++ [sqlMessage rowIndex colIndex]
    else scanErrors st in
  let (scriptHit, scriptLast) :=
    regexTest scriptPatterns (scriptLastIndex st) cellStr in
  let errs2 :=
    if scriptHit then errs1 ++ [scriptMessage rowIndex colIndex]
    else errs1 in
  mkScan errs2 sqlLast scriptLast.

Definition scanRow (row : list jsstring) (rowIndex : nat) (st : scanState)
    : scanState :=
  forEach (scanCell rowIndex) row st.

Definition validateCSVContent `{HostLocale} (data : list (list jsstring))
    : ValidationResult :=
  if Nat.eqb (length data) 0 then mkResult false [emptyMessage]
  else
    let errs1 :=
      if (MAX_ROWS <? N.of_nat (length data))%N then [rowLimitMessage]
      else [] in
    let headers := hd [] data in
    let errs2 := forEach checkHeader headers errs1 in
    let st := forEach scanRow data (mkScan errs2 0 0) in
    mkResult (Nat.eqb (length (scanErrors st)) 0) (scanErrors st).

(** The two patterns of [sanitizeCell], both with the [g] flag: the class
    of the two angle brackets, and the class of the apostrophe, the double
    quote, the backtick and the semicolon. *)
Definition anglePattern : RegExp :=
  mkRegExp (Class false [CChar (chr "<"); CChar (chr ">")]) true false.

Definition quotePattern : RegExp :=
  mkRegExp (Class false [CChar (chr "'"); CChar 34%N; CChar (chr "`");
                         CChar (chr ";")]) true false.

Definition sanitizeCell (value : jsstring) : jsstring :=
  trim (replaceWithEmpty quotePattern (replaceWithEmpty anglePattern value)).

(** The [File] handed to [processFile]. *)
Record File := mkFile {
  name : jsstring;
  size : N
}.

(** What [processFile] and the callbacks it registers do to the outside:
    notifications, state updates of the component, and the call of the
    parser. *)
Inductive effect :=
| Toast (title : jsstring) (description : option jsstring) (destructive : bool)
| SetIsValidating (b : bool)
| SetFile (f : option File)
| SetPreview (p : list (list jsstring))
| PapaParse (f : File).

Definition tooLargeToast : effect :=
  Toast (lit "File too large")
    (Some (lit "Maximum file size is "
           ++ numberToString (MAX_FILE_SIZE / 1024 / 1024) ++ lit "MB"))
    true.

Definition invalidTypeToast : effect :=
  Toast (lit "Invalid file type") (Some (lit "Please upload a CSV file")) true.

(** The synchronous part of [processFile]. *)
Definition processFile (selectedFile : File) : list effect :=
  if (MAX_FILE_SIZE <? size selectedFile)%N then [tooLargeToast]
  else if negb (endsWith (name selectedFile) (lit ".csv"))
  then [invalidTypeToast]
  else [SetIsValidating true; SetFile (Some selectedFile);
        PapaParse selectedFile].

(** The [complete] callback given to the parser. *)
Definition parseComplete `{HostLocale} (data : list (list jsstring))
    : list effect :=
  let validation := validateCSVContent data in
  if negb (isValid validation)
  then [Toast (lit "Security validation failed")
          (nth_error (errors validation) 0) true;
        SetIsValidating false; SetFile None]
  else
    let sanitizedData := map (fun row => map sanitizeCell row) data in
    [SetPreview (slice 0 5 sanitizedData); SetIsValidating false;
     Toast (lit "File validated")
       (Some (lit "CSV file passed security checks")) false].

(** The [error] callback given to the parser. *)
Definition parseError (message : jsstring) : list effect :=
  [Toast (lit "Parse error") (Some message) true;
   SetIsValidating false; SetFile None].

(** The violations the three checks of [validateCSVContent] contribute, each
    taken on its own. *)
Definition rowLimitViolations `{HostLocale} (data : list (list jsstring))
    : list jsstring :=
  if (MAX_ROWS <? N.of_nat (length data))%N then [rowLimitMessage] else [].

Definition headerViolations (headers : list jsstring) : list jsstring :=
  forEach checkHeader headers [].

Definition injectionViolations (data : list (list jsstring))
    : list jsstring :=
  scanErrors (forEach scanRow data (mkScan [] 0 0)).

(** ** Vocabulary of the statements *)

(** The characters a header cell may consist of. *)
Definition headerChar (c : codeUnit) : bool :=
  inRange (chr "a") (chr "z") c || inRange (chr "A") (chr "Z") c
  || inRange (chr "0") (chr "9") c || (c =? chr "_")%N || isWhiteSpace c.

Definition headerWellFormed (h : jsstring) : bool :=
  match h with
  | [] => false
  | _ :: _ => forallb headerChar h
  end.

(** Letters, digits, the underscore and the space character alone. *)
Definition plainHeaderChar (c : codeUnit) : bool :=
  inRange (chr "a") (chr "z") c || inRange (chr "A") (chr "Z") c
  || inRange (chr "0") (chr "9") c || (c =? chr "_")%N || (c =? chr " ")%N.

Definition isDigit (c : codeUnit) : bool := inRange (chr "0") (chr "9") c.

(** The six characters [sanitizeCell] removes. *)
Definition isStripped (c : codeUnit) : bool :=
  ((c =? chr "<") || (c =? chr ">") || (c =? chr "'") || (c =? 34)
   || (c =? chr "`") || (c =? chr ";"))%N.

(** The two pattern classes of the injection scan. *)
Inductive patternClass := SqlLike | ScriptLike.

Definition classPattern (cls : patternClass) : RegExp :=
  match cls with SqlLike => sqlPatterns | ScriptLike => scriptPatterns end.

Definition classMessage (cls : patternClass) : nat -> nat -> jsstring :=
  match cls with SqlLike => sqlMessage | ScriptLike => scriptMessage end.

Definition classLastIndex (cls : patternClass) (st : scanState) : nat :=
  match cls with
  | SqlLike => sqlLastIndex st
  | ScriptLike => scriptLastIndex st
  end.

(** A cell matches a class when the pattern, searched from the start of the
    cell, is found in it. *)
Definition cellMatches (cls : patternClass) (cell : jsstring) : bool :=
  fst (regexTest (classPattern cls) 0 cell).

Fixpoint indexFrom {A : Type} (i : nat) (l : list A) : list (nat * A) :=
  match l with
  | [] => []
  | a :: t => (i, a) :: indexFrom (S i) t
  end.

(** The cells of a table with their 0-based row and column index, in the
    order in which the two nested [forEach] loops visit them. *)
Definition cellsInScanOrder (data : list (list jsstring))
    : list (nat * nat * jsstring) :=
  flat_map (fun ir => map (fun ic => (fst ir, fst ic, snd ic))
                        (indexFrom 0 (snd ir)))
           (indexFrom 0 data).

(** Two continuations agree on the positions that leave at most [n] code
    units of input; a matcher is local when it only continues at positions
    not to the left of its own. *)
Definition agreeBelow (n : nat) (k k' : continuation) : Prop :=
  forall y, length (rest y) <= n -> k y = k' y.

Definition localMatcher (m : matcher) : Prop :=
  forall x k k', agreeBelow (length (rest x)) k k' -> m x k = m x k'.

(** The class of [headerPattern] as a pattern of its own, and what follows
    its [+]: the end of the input. *)
Definition headerCell : regex := Class false headerClass.

Definition atEnd : continuation := fun y => matchRegex false Eol y Some.

(** One visit of the scan. *)
Definition scanStep (st : scanState) (x : nat * nat * jsstring) : scanState :=
  scanCell (fst (fst x)) (snd x) (snd (fst x)) st.

(** The cell visited just before a given one does not match the class. *)
Definition quietBefore (cls : patternClass)
    (before : list (nat * nat * jsstring)) : Prop :=
  match rev before with
  | [] => True
  | (_, _, cell) :: _ => cellMatches cls cell = false
  end.

(** The last code unit of a string is a word character. *)
Definition endsInWordChar (s : jsstring) : bool :=
  match rev s with
  | c :: _ => isWordChar c
  | [] => false
  end.

(** ** The upload component as a whole *)

(** The state of [CSVUpload]. *)
Record uploadState := mkUpload {
  isDragging : bool;
  file : option File;
  preview : option (list (list jsstring));
  isValidating : bool
}.

Definition initialUpload : uploadState := mkUpload false None None false.

(** What a state setter among the effects does to the state. *)
Definition applyEffect (st : uploadState) (e : effect) : uploadState :=
  match e with
  | SetIsValidating b => mkUpload (isDragging st) (file st) (preview st) b
  | SetFile f => mkUpload (isDragging st) f (preview st) (isValidating st)
  | SetPreview p =>
      mkUpload (isDragging st) (file st) (Some p) (isValidating st)
  | Toast _ _ _ => st
  | PapaParse _ => st
  end.

Definition applyEffects (st : uploadState) (es : list effect) : uploadState :=
  fold_left applyEffect es st.

(** What the component does to the outside while it handles an event: the
    effects of [processFile] and of the parser callbacks, and the calls of
    its two props. *)
Inductive output :=
| Performed (e : effect)
| OnUpload (f : File) (p : list (list jsstring))
| OnCancel.

(** The events the component handles: a drop with the files it carries, a
    change of the file input with its [files] (which may be [null]), the two
    drag events, the two callbacks of the parser, and the three buttons. *)
Inductive uploadEvent :=
| Dropped (files : list File)
| FileChosen (files : option (list File))
| DragOver
| DragLeave
| ParseCompleted (data : list (list jsstring))
| ParseFailed (message : jsstring)
| UploadClicked
| ClearClicked
| CancelClicked.

Definition runEffects (st : uploadState) (es : list effect)
    : uploadState * list output :=
  (applyEffects st es, map Performed es).

Definition handleDrop (files : list File) (st : uploadState)
    : uploadState * list output :=
  let st1 := mkUpload false (file st) (preview st) (isValidating st) in
  match nth_error files 0 with
  | Some droppedFile => runEffects st1 (processFile droppedFile)
  | None => (st1, [])
  end.

Definition handleFileInput (files : option (list File)) (st : uploadState)
    : uploadState * list output :=
  match files with
  | Some fs =>
      match nth_error fs 0 with
      | Some selectedFile => runEffects st (processFile selectedFile)
      | None => (st, [])
      end
  | None => (st, [])
  end.

Definition handleUpload (st : uploadState) : list output :=
  match file st, preview st with
  | Some f, Some p => [OnUpload f p]
  | _, _ => []
  end.

Definition uploadStep `{HostLocale} (st : uploadState) (ev : uploadEvent)
    : uploadState * list output :=
  match ev with
  | Dropped files => handleDrop files st
  | FileChosen files => handleFileInput files st
  | DragOver => (mkUpload true (file st) (preview st) (isValidating st), [])
  | DragLeave => (mkUpload false (file st) (preview st) (isValidating st), [])
  | ParseCompleted data => runEffects st (parseComplete data)
  | ParseFailed message => runEffects st (parseError message)
  | UploadClicked => (st, handleUpload st)
  | ClearClicked => (mkUpload (isDragging st) None None (isValidating st), [])
  | CancelClicked => (st, [OnCancel])
  end.

(** The component along a sequence of events, with everything it did. *)
Fixpoint uploadRun `{HostLocale} (st : uploadState) (evs : list uploadEvent)
    : uploadState * list output :=
  match evs with
  | [] => (st, [])
  | ev :: rest =>
      let (st1, out1) := uploadStep st ev in
      let (st2, out2) := uploadRun st1 rest in
      (st2, out1 ++ out2)
  end.

(** [Array.prototype.join] on an array of strings. *)
Fixpoint join (sep : jsstring) (l : list jsstring) : jsstring :=
  match l with
  | [] => []
  | [x] => x
  | x :: t => x ++ sep ++ join sep t
  end.

(** The line feed, code unit 10. *)
Definition newline : jsstring := [10%N].

(** ** The chat component, [ChatInterface] *)

Module ChatInterface.

Inductive Role := user | assistant.

Record Message := mkMessage {
  id : jsstring;
  role : Role;
  content : jsstring;
  timestamp : N
}.

Record chatState := mkChat {
  messages : list Message;
  input : jsstring;
  isLoading : bool;
  showUpload : bool
}.

(** The callbacks the handlers hand to [setTimeout]. *)
Inductive reply :=
| ReplyToQuestion
| ReplyToUpload (f : File).

(** A handler's result: the next state, the notifications it raised, and
    the callbacks it scheduled with their delay in milliseconds. *)
Record handled := mkHandled {
  next : chatState;
  toasts : list effect;
  scheduled : list (N * reply)
}.

Definition unhandled (st : chatState) : handled := mkHandled st [] [].

Definition userMessageId (now : N) : jsstring :=
  lit "msg-" ++ numberToString now.

Definition aiMessageId (now : N) : jsstring :=
  lit "msg-" ++ numberToString now ++ lit "-ai".

Definition genericReply : jsstring :=
  lit "I'm an AI assistant ready to help you analyze your data. Please upload a CSV file or ask me a question about your data.".

(** [handleSend]; [now] is what [Date.now()] returns and [stamp] the time
    of [new Date()]. *)
Definition handleSend (now stamp : N) (st : chatState) : handled :=
  match trim (input st) with
  | [] => unhandled st
  | _ :: _ =>
      let userMessage :=
        mkMessage (userMessageId now) user (input st) stamp in
      mkHandled (mkChat (messages st ++ [userMessage]) [] true (showUpload st))
        [] [(1000%N, ReplyToQuestion)]
  end.

(** The text under [Preview:] in the message of an upload. *)
Definition previewText (preview : list (list jsstring)) : jsstring :=
  join newline (map (fun row => join (lit ", ") row) (slice 0 3 preview)).

Definition uploadContent (f : File) (preview : list (list jsstring))
    : jsstring :=
  lit "Uploaded CSV file: " ++ name f ++ lit " ("
  ++ numberToString (size f) ++ lit " bytes)" ++ newline ++ newline
  ++ lit "Preview:" ++ newline ++ previewText preview.

Definition handleCSVUpload (now stamp : N) (f : File)
    (preview : list (list jsstring)) (st : chatState) : handled :=
  let message :=
    mkMessage (userMessageId now) user (uploadContent f preview) stamp in
  mkHandled
    (mkChat (messages st ++ [message]) (input st) (isLoading st) false)
    [Toast (lit "File uploaded successfully")
       (Some (name f ++ lit " has been uploaded and analyzed")) false]
    [(1500%N, ReplyToUpload f)].

(** The callbacks of the two timers, when they run. *)
Definition runReply (r : reply) (now stamp : N) (st : chatState)
    : chatState :=
  match r with
  | ReplyToQuestion =>
      mkChat (messages st
              ++ [mkMessage (aiMessageId now) assistant genericReply stamp])
        (input st) false (showUpload st)
  | ReplyToUpload f =>
      mkChat (messages st
              ++ [mkMessage (aiMessageId now) assistant
                    (lit "I've successfully processed your CSV file "
                     ++ dquote ++ name f ++ dquote
                     ++ lit ". The data looks good! What would you like me to analyze or explain about your data?")
                    stamp])
        (input st) (isLoading st) (showUpload st)
  end.

Definition handleKeyPress (key : jsstring) (shiftKey : bool) (now stamp : N)
    (st : chatState) : handled :=
  if jsstringEqb key (lit "Enter") && negb shiftKey
  then handleSend now stamp st
  else unhandled st.

(** What can happen to the component. *)
Inductive chatEvent :=
| Typed (text : jsstring)
| SendClicked (now stamp : N)
| KeyPressed (key : jsstring) (shiftKey : bool) (now stamp : N)
| Uploaded (now stamp : N) (f : File) (preview : list (list jsstring))
| TimerFired (r : reply) (now stamp : N)
| UploadOpened
| UploadCancelled.

Definition chatStep (st : chatState) (ev : chatEvent) : chatState :=
  match ev with
  | Typed text => mkChat (messages st) text (isLoading st) (showUpload st)
  | SendClicked now stamp => next (handleSend now stamp st)
  | KeyPressed key shiftKey now stamp =>
      next (handleKeyPress key shiftKey now stamp st)
  | Uploaded now stamp f preview =>
      next (handleCSVUpload now stamp f preview st)
  | TimerFired r now stamp => runReply r now stamp st
  | UploadOpened => mkChat (messages st) (input st) (isLoading st) true
  | UploadCancelled => mkChat (messages st) (input st) (isLoading st) false
  end.

End ChatInterface.

(** ** The session list of [Dashboard] *)

Module Dashboard.

Record ChatSession := mkSession {
  id : jsstring;
  title : jsstring;
  created_at : jsstring
}.

(** The part of the state the session handlers read and write. *)
Record dashState := mkDash {
  sessions : list ChatSession;
  currentSessionId : option jsstring;
  sidebarOpen : bool
}.

Definition initialDash : dashState := mkDash [] None true.

(** [handleNewChat]; [now] is what [Date.now()] returns and [isoNow] the
    text [new Date().toISOString()] gives. *)
Definition handleNewChat (now : N) (isoNow : jsstring) (st : dashState)
    : dashState :=
  let newSession :=
    mkSession (lit "session-" ++ numberToString now) (lit "New Chat") isoNow in
  mkDash (newSession :: sessions st) (Some (id newSession)) (sidebarOpen st).

(** A click on the button of the session listed at position [i]. *)
Definition selectSession (i : nat) (st : dashState) : dashState :=
  match nth_error (sessions st) i with
  | Some session =>
      mkDash (sessions st) (Some (id session)) (sidebarOpen st)
  | None => st
  end.

Definition toggleSidebar (st : dashState) : dashState :=
  mkDash (sessions st) (currentSessionId st) (negb (sidebarOpen st)).

Inductive dashEvent :=
| NewChat (now : N) (isoNow : jsstring)
| SessionClicked (i : nat)
| SidebarToggled.

Definition dashStep (st : dashState) (ev : dashEvent) : dashState :=
  match ev with
  | NewChat now isoNow => handleNewChat now isoNow st
  | SessionClicked i => selectSession i st
  | SidebarToggled => toggleSidebar st
  end.

End Dashboard.

(** ** Vocabulary of the further statements *)

(** A cell as [sanitizeCell] leaves it: none of the six characters, and no
    white space at either end. *)
Definition cleanCell (cell : jsstring) : Prop :=
  (forall c, In c cell -> isStripped c = false)
  /\ match cell with c :: _ => isWhiteSpace c = false | [] => True end
  /\ match rev cell with c :: _ => isWhiteSpace c = false | [] => True end.

(** A file the two guards of [processFile] let through. *)
Definition admitted (f : File) : Prop :=
  (size f <= MAX_FILE_SIZE)%N /\ exists p, name f = p ++ lit ".csv".

(** A preview as [parseComplete] stores it for some table that passed
    validation. *)
Definition previewOfValid `{HostLocale} (p : list (list jsstring)) : Prop :=
  exists data,
    isValid (validateCSVContent data) = true
    /\ p = slice 0 5 (map (fun row => map sanitizeCell row) data).

(** Two strings that differ at most in the case of their ASCII letters. *)
Definition sameIgnoringCase (a b : jsstring) : Prop :=
  map (canonicalize true) a = map (canonicalize true) b.

(** The first code unit of a string is a word character. *)
Definition startsWithWordChar (s : jsstring) : bool :=
  match s with
  | c :: _ => isWordChar c
  | [] => false
  end.

(** The literal [s] cannot be matched at a position: the input ends
    there, or goes on with a code unit other than the first of [s]. *)
Definition blockedAt (s : jsstring) (x : mstate) : bool :=
  match s, rest x with
  | [], _ => false
  | _ :: _, [] => true
  | a :: _, c :: _ => negb (canonicalize true a =? canonicalize true c)%N
  end.

(** The literals with which the alternatives of the two injection patterns
    begin. *)
Definition injectionLiterals : list jsstring :=
  map lit (sqlKeywords ++ sqlTokens ++ ["<script"; "javascript:"; "on"]%string).

(** The current session of the dashboard, if any, is in its list. *)
Definition currentListed (st : Dashboard.dashState) : Prop :=
  forall i, Dashboard.currentSessionId st = Some i ->
  exists session,
    In session (Dashboard.sessions st) /\ Dashboard.id session = i.

(** The number of [New Chat] clicks among the events of the dashboard. *)
Definition newChats (evs : list Dashboard.dashEvent) : nat :=
  length (filter (fun ev => match ev with
                            | Dashboard.NewChat _ _ => true
                            | _ => false
                            end) evs).

(** What the state of the upload component satisfies at all times. *)
Definition uploadInvariant `{HostLocale} (st : uploadState) : Prop :=
  (forall f, file st = Some f -> admitted f)
  /\ (forall p, preview st = Some p -> previewOfValid p).

(** The characters one of which starts every match of the two injection
    patterns, in upper case where they are letters. *)
Definition injectionInitials : list codeUnit :=
  map chr ["S"; "I"; "U"; "D"; "C"; "A"; "E"; "X"; "J"; "O"; "-"; ";"; "/";
           "*"; "<"]%string.

Definition harmlessChar (c : codeUnit) : bool :=
  negb (existsb (N.eqb (canonicalize true c)) injectionInitials).

(** ** Strings and numbers *)

Section Strings.

Lemma lit_app (a b : string) : lit (a ++ b) = lit a ++ lit b.
Proof.
  induction a as [|c a IH]; simpl; [reflexivity|]. now rewrite IH.
Qed.

Lemma N_of_ascii_inj (a b : ascii) : N_of_ascii a = N_of_ascii b -> a = b.
Proof.
  intros E. rewrite <- (ascii_N_embedding a), <- (ascii_N_embedding b).
  now rewrite E.
Qed.

Lemma lit_inj (a b : string) : lit a = lit b -> a = b.
Proof.
  revert b. induction a as [|c a IH]; intros [|d b] E; simpl in E;
    try discriminate; [reflexivity|].
  injection E as E1 E2. apply N_of_ascii_inj in E1. apply IH in E2.
  now subst.
Qed.

Lemma numberToString_inj (n m : N) :
  numberToString n = numberToString m -> n = m.
Proof.
  unfold numberToString. intros E. apply lit_inj in E.
  apply Unsigned.to_uint_inj.
  assert (Some (N.to_uint n) = Some (N.to_uint m)) as E'.
  { rewrite <- (NilEmpty.usu (N.to_uint n)), <- (NilEmpty.usu (N.to_uint m)).
    now rewrite E. }
  now injection E'.
Qed.

Lemma string_of_uint_digits (d : Decimal.uint) :
  forallb isDigit (lit (NilEmpty.string_of_uint d)) = true.
Proof.
  induction d; simpl; try reflexivity; exact IHd.
Qed.

Lemma numberToString_digits (n : N) :
  forallb isDigit (numberToString n) = true.
Proof. apply string_of_uint_digits. Qed.

(** Two runs of digits followed by a non-digit agree when what they start
    agrees. *)
Lemma digits_prefix_inj (d1 d2 r1 r2 : jsstring) (x : codeUnit) :
  forallb isDigit d1 = true -> forallb isDigit d2 = true ->
  isDigit x = false ->
  d1 ++ x :: r1 = d2 ++ x :: r2 -> d1 = d2 /\ r1 = r2.
Proof.
  revert d2. induction d1 as [|a d1 IH]; intros [|b d2] H1 H2 Hx E;
    simpl in *.
  - injection E as E. now split.
  - injection E as E1 E2. subst b.
    apply andb_true_iff in H2. destruct H2 as [H2 _]. congruence.
  - injection E as E1 E2. subst a.
    apply andb_true_iff in H1. destruct H1 as [H1 _]. congruence.
  - injection E as E1 E2. subst b.
    apply andb_true_iff in H1. apply andb_true_iff in H2.
    destruct (IH d2) as [-> ->]; tauto.
Qed.

Lemma jsstringEqb_eq (a b : jsstring) : jsstringEqb a b = true <-> a = b.
Proof.
  revert b. induction a as [|x a IH]; intros [|y b]; simpl;
    try (split; [discriminate|discriminate]); [tauto|].
  rewrite andb_true_iff, N.eqb_eq, IH. split.
  - intros [-> ->]. reflexivity.
  - intros E. injection E as -> ->. now split.
Qed.

(** [endsWith] holds exactly of the strings that end in the searched one. *)
Lemma endsWith_spec (s x : jsstring) :
  endsWith s x = true <-> exists p, s = p ++ x.
Proof.
  unfold endsWith.
  destruct (Z.ltb_spec (Z.of_nat (length s) - Z.of_nat (length x)) 0)
    as [Hlt|Hge].
  - split; [discriminate|]. intros [p ->]. rewrite length_app in Hlt. lia.
  - rewrite jsstringEqb_eq. split.
    + intros E.
      exists (firstn (Z.to_nat (Z.of_nat (length s) - Z.of_nat (length x))) s).
      rewrite <- E at 2. symmetry. apply firstn_skipn.
    + intros [p ->]. rewrite length_app.
      replace (Z.to_nat (Z.of_nat (length p + length x) - Z.of_nat (length x)))
        with (length p) by lia.
      rewrite skipn_app, skipn_all, Nat.sub_diag. reflexivity.
Qed.

End Strings.

(** ** The matcher *)

Section Matcher.

Variable ic : bool.
Variable r : regex.

(** A match found when the search starts further right is also within
    reach of a search that starts at the position itself. *)
Lemma searchFrom_advance (i : nat) (x y : mstate) :
  advance i x = Some y ->
  searchFrom ic r x = None -> searchFrom ic r y = None.
Proof.
  revert x. induction i as [|i IH]; intros x Hadv Hnone; simpl in Hadv.
  - now injection Hadv as <-.
  - destruct x as [p s]. unfold step in Hadv. simpl in Hadv.
    destruct s as [|c t]; [discriminate|].
    apply (IH _ Hadv).
    unfold searchFrom in *. simpl in *.
    destruct (matchRegex ic r (mkState p (c :: t)) Some); [discriminate|].
    exact Hnone.
Qed.

(** A match at a position inside the input is found by the search from the
    start, unless an earlier one is. *)
Lemma searchRest_reaches (a b : jsstring) (p : option codeUnit) :
  matchRegex ic r (mkState (fold_left (fun _ c => Some c) a p) b) Some
    <> None ->
  searchRest ic r p (a ++ b) <> None.
Proof.
  revert p. induction a as [|c a IH]; intros p Hm; simpl in *.
  - destruct b; simpl; destruct (matchRegex ic r _ Some); congruence.
  - destruct (matchRegex ic r (mkState p (c :: a ++ b)) Some);
      [discriminate|]. now apply IH.
Qed.

End Matcher.

Lemma prev_of_rev (a : jsstring) (p : option codeUnit) :
  fold_left (fun _ c => Some c) a p
  = match rev a with c :: _ => Some c | [] => p end.
Proof.
  revert p. induction a as [|c a IH]; intros p; simpl; [reflexivity|].
  rewrite IH. destruct (rev a); reflexivity.
Qed.

Section GlobalTest.

Variable re : RegExp.
Hypothesis re_global : global re = true.

(** A failed [test] leaves [lastIndex] at 0. *)
Lemma regexTest_miss (i : nat) (s : jsstring) :
  fst (regexTest re i s) = false -> regexTest re i s = (false, 0).
Proof.
  unfold regexTest. rewrite re_global.
  destruct (advance i (startOf s)) as [x|]; [|reflexivity].
  destruct (searchFrom (ignoreCase re) (source re) x); [discriminate|].
  reflexivity.
Qed.

(** A string in which the pattern does not occur fails [test] whatever
    [lastIndex] is. *)
Lemma regexTest_absent (i : nat) (s : jsstring) :
  fst (regexTest re 0 s) = false -> regexTest re i s = (false, 0).
Proof.
  unfold regexTest. rewrite re_global. cbn [advance].
  destruct (searchFrom (ignoreCase re) (source re) (startOf s)) eqn:E0;
    [simpl; discriminate|]. intros _.
  destruct (advance i (startOf s)) as [x|] eqn:Ex; [|reflexivity].
  erewrite searchFrom_advance; eauto.
Qed.

End GlobalTest.

Lemma eqb_succ_false (n : nat) : Nat.eqb n (S n) = false.
Proof. apply Nat.eqb_neq. lia. Qed.

Section ClassStar.

Variable ic : bool.
Variable invert : bool.
Variable items : list classItem.

(** A greedy star over a character class runs to the end of the longest run
    of class members when what follows the star succeeds there. *)
Lemma classRepeat_greedy (run tail : jsstring) (k : continuation) :
  forallb (classMatches ic invert items) run = true ->
  match tail with
  | c :: _ => classMatches ic invert items c = false
  | [] => True
  end ->
  forall (fuel : nat) (p : option codeUnit) (z : mstate),
  length run < fuel ->
  k (mkState (fold_left (fun _ c => Some c) run p) tail) = Some z ->
  repeatMatcher (matchRegex ic (Class invert items)) k fuel
    (mkState p (run ++ tail)) = Some z.
Proof.
  intros Hrun Htail.
  induction run as [|c run IH]; intros fuel p z Hfuel Hk;
    (destruct fuel as [|fuel]; [simpl in Hfuel; lia|]); simpl.
  - destruct tail as [|c t]; simpl in *; [exact Hk|].
    rewrite Htail. exact Hk.
  - simpl in Hrun. apply andb_true_iff in Hrun. destruct Hrun as [Hc Hrun].
    rewrite Hc, eqb_succ_false.
    assert (length run < fuel) as Hlt by (simpl in Hfuel; lia).
    pose proof (IH Hrun fuel (Some c) z Hlt Hk) as Hrec. simpl in Hrec.
    now rewrite Hrec.
Qed.

Lemma classStar_greedy (run tail : jsstring) (k : continuation)
    (p : option codeUnit) (z : mstate) :
  forallb (classMatches ic invert items) run = true ->
  match tail with
  | c :: _ => classMatches ic invert items c = false
  | [] => True
  end ->
  k (mkState (fold_left (fun _ c => Some c) run p) tail) = Some z ->
  matchRegex ic (Star (Class invert items)) (mkState p (run ++ tail)) k
  = Some z.
Proof.
  intros Hrun Htail Hk. cbn [matchRegex rest].
  apply classRepeat_greedy; trivial. rewrite length_app. lia.
Qed.

End ClassStar.

(** ** The bound on the iterations of a star *)

Section Fuel.

Variable ic : bool.

Lemma repeatMatcher_local (m : matcher) :
  localMatcher m ->
  forall fuel x k k',
  agreeBelow (length (rest x)) k k' ->
  repeatMatcher m k fuel x = repeatMatcher m k' fuel x.
Proof.
  intros Hm. induction fuel as [|fuel IH]; intros x k k' Hk; [reflexivity|].
  cbn [repeatMatcher]. rewrite (Hk x) by lia.
  rewrite (Hm x _ (fun y =>
             if Nat.eqb (length (rest y)) (length (rest x)) then None
             else repeatMatcher m k' fuel y)); [reflexivity|].
  intros y Hy. destruct (Nat.eqb _ _); [reflexivity|].
  apply IH. intros z Hz. apply Hk. lia.
Qed.

(** The matcher only ever continues at or to the right of where it is. *)
Lemma matchRegex_local (r : regex) : localMatcher (matchRegex ic r).
Proof.
  induction r as [|c|invert items|a IHa b IHb|a IHa b IHb|a IHa| | | |a IHa];
    intros x k k' Hk; cbn [matchRegex].
  - apply Hk. lia.
  - destruct (rest x) as [|ch t] eqn:Ex; [reflexivity|].
    destruct (_ =? _)%N; [|reflexivity]. apply Hk. cbn. lia.
  - destruct (rest x) as [|ch t] eqn:Ex; [reflexivity|].
    destruct (classMatches _ _ _ _); [|reflexivity]. apply Hk. cbn. lia.
  - apply IHa. intros y Hy. apply IHb. intros z Hz. apply Hk. lia.
  - rewrite (IHa x k k' Hk), (IHb x k k' Hk). reflexivity.
  - now apply repeatMatcher_local.
  - rewrite (Hk x) by lia. reflexivity.
  - rewrite (Hk x) by lia. reflexivity.
  - rewrite (Hk x) by lia. reflexivity.
  - rewrite (Hk x) by lia. reflexivity.
Qed.

(** Any amount of fuel above the length of the rest of the input gives the
    same result: the iterations of a star never use it up. *)
Lemma repeatMatcher_fuel (m : matcher) (k : continuation) :
  localMatcher m ->
  forall n x fuel fuel',
  length (rest x) <= n -> n < fuel -> n < fuel' ->
  repeatMatcher m k fuel x = repeatMatcher m k fuel' x.
Proof.
  intros Hm. induction n as [|n IH]; intros x fuel fuel' Hx Hf Hf';
    (destruct fuel as [|fuel]; [lia|]);
    (destruct fuel' as [|fuel']; [lia|]); cbn [repeatMatcher].
  - rewrite (Hm x _ (fun y =>
               if Nat.eqb (length (rest y)) (length (rest x)) then None
               else repeatMatcher m k fuel' y)); [reflexivity|].
    intros y Hy. destruct (Nat.eqb_spec (length (rest y)) (length (rest x)));
      [reflexivity|lia].
  - rewrite (Hm x _ (fun y =>
               if Nat.eqb (length (rest y)) (length (rest x)) then None
               else repeatMatcher m k fuel' y)); [reflexivity|].
    intros y Hy. destruct (Nat.eqb_spec (length (rest y)) (length (rest x)));
      [reflexivity|]. apply IH; lia.
Qed.

Lemma star_fuel (a : regex) (x : mstate) (k : continuation) (extra : nat) :
  repeatMatcher (matchRegex ic a) k (S (length (rest x)) + extra) x
  = matchRegex ic (Star a) x k.
Proof.
  cbn [matchRegex].
  apply (repeatMatcher_fuel k (matchRegex_local a) (n := length (rest x)));
    lia.
Qed.

End Fuel.

(** ** The header pattern *)

Section HeaderPattern.

Lemma headerClass_matches (c : codeUnit) :
  classMatches false false headerClass c = headerChar c.
Proof.
  unfold classMatches, headerClass, headerChar. cbn [existsb itemMatches xorb].
  unfold canonicalize. cbn [andb].
  rewrite !orb_false_r, (N.eqb_sym (chr "_") c), !orb_assoc. reflexivity.
Qed.

Lemma header_repeat (t : jsstring) :
  forall (fuel : nat) (p : option codeUnit),
  length t < fuel ->
  repeatMatcher (matchRegex false headerCell) atEnd fuel (mkState p t)
  = if forallb headerChar t
    then Some (mkState (fold_left (fun _ c => Some c) t p) [])
    else None.
Proof.
  induction t as [|c t IH]; intros fuel p Hfuel;
    (destruct fuel as [|fuel]; [simpl in Hfuel; lia|]).
  - reflexivity.
  - cbn [repeatMatcher]. unfold headerCell at 1.
    cbn [matchRegex rest length].
    rewrite headerClass_matches, eqb_succ_false. cbn [forallb fold_left].
    destruct (headerChar c); cbn [andb]; [|reflexivity].
    rewrite IH by (simpl in Hfuel; lia).
    destruct (forallb headerChar t); reflexivity.
Qed.

Lemma header_not_later (t : jsstring) (c : codeUnit) :
  searchRest false (source headerPattern) (Some c) t = None.
Proof.
  revert c. induction t as [|d t IH]; intros c; simpl; [reflexivity|].
  apply IH.
Qed.

(** The header pattern accepts exactly the non-empty strings of letters,
    digits, underscores and white space. *)
Lemma headerPattern_test (h : jsstring) :
  fst (regexTest headerPattern 0 h) = headerWellFormed h.
Proof.
  unfold regexTest. cbn [global headerPattern advance ignoreCase source].
  unfold searchFrom, startOf. cbn [prev rest].
  destruct h as [|c t].
  - reflexivity.
  - cbn [searchRest]. unfold Plus.
    cbn [matchRegex prev rest]. rewrite headerClass_matches.
    cbn [headerWellFormed forallb].
    destruct (headerChar c); cbn [andb].
    + fold headerCell.
      change (fun y : mstate => matchRegex false Eol y Some) with atEnd.
      rewrite header_repeat by lia.
      destruct (forallb headerChar t); [reflexivity|].
      now rewrite header_not_later.
    + now rewrite header_not_later.
Qed.

End HeaderPattern.

(** ** The injection patterns on the two strings of the specification *)

Section InjectionPatterns.

Lemma sql_at_drop_table (p : option codeUnit) (b : jsstring) :
  wordBefore (mkState p []) = false ->
  matchRegex true sqlSource (mkState p (lit "DROP TABLE" ++ b)) Some
  = Some (mkState (Some (chr "P")) (lit " TABLE" ++ b)).
Proof.
  intros Hp. unfold sqlSource.
  cbn [matchRegex]. unfold wordBefore in *. cbn [prev] in *. rewrite Hp.
  vm_compute. reflexivity.
Qed.

Lemma match_Alt_left (ic : bool) (a b : regex) (x z : mstate)
    (k : continuation) :
  matchRegex ic a x k = Some z -> matchRegex ic (Alt a b) x k = Some z.
Proof. intros E. cbn [matchRegex]. now rewrite E. Qed.

Lemma match_Str (ic : bool) (s t : jsstring) (p : option codeUnit)
    (k : continuation) :
  matchRegex ic (Str s) (mkState p (s ++ t)) k
  = k (mkState (fold_left (fun _ c => Some c) s p) t).
Proof.
  revert p. induction s as [|c s IH]; intros p; [reflexivity|].
  destruct s as [|d s].
  - cbn [Str matchRegex rest app]. now rewrite N.eqb_refl.
  - change (Str (c :: d :: s)) with (Seq (Char c) (Str (d :: s))).
    cbn [matchRegex rest app]. rewrite N.eqb_refl.
    exact (IH (Some c)).
Qed.

Lemma script_at_alert (p : option codeUnit) (b : jsstring) :
  matchRegex true scriptSource
    (mkState p (lit "<script>alert(1)</script>" ++ b)) Some
  = Some (mkState (Some (chr ">")) b).
Proof.
  unfold scriptSource. apply match_Alt_left.
  change (lit "<script>alert(1)</script>" ++ b)
    with (lit "<script" ++ (lit ">alert(1)" ++ (lit "</script>" ++ b))).
  cbn [matchRegex]. rewrite match_Str.
  change (xorb (wordBefore (mkState (Some (chr "t")) []))
               (wordAfter (mkState None [chr ">"])))
    with true. cbn iota.
  apply (classStar_greedy true true [CChar (chr "<")] (lit ">alert(1)")
           (lit "</script>" ++ b)).
  - reflexivity.
  - reflexivity.
  - vm_compute. reflexivity.
Qed.

End InjectionPatterns.

Section CellMatches.

Lemma cellMatches_reached (cls : patternClass) (a b : jsstring) :
  matchRegex true (source (classPattern cls))
    (mkState (fold_left (fun _ c => Some c) a None) b) Some <> None ->
  cellMatches cls (a ++ b) = true.
Proof.
  intros Hm. apply searchRest_reaches in Hm.
  unfold cellMatches, regexTest.
  replace (global (classPattern cls)) with true by (now destruct cls).
  replace (ignoreCase (classPattern cls)) with true by (now destruct cls).
  cbn [advance]. unfold searchFrom, startOf. cbn [prev rest].
  destruct (searchRest true (source (classPattern cls)) None (a ++ b));
    [reflexivity|congruence].
Qed.

(** A cell in which [DROP TABLE] occurs, not glued to a word character on
    its left, matches the SQL-like class. *)
Lemma cellMatches_drop_table (a b : jsstring) :
  endsInWordChar a = false ->
  cellMatches SqlLike (a ++ lit "DROP TABLE" ++ b) = true.
Proof.
  intros Ha. apply cellMatches_reached. cbn [classPattern sqlPatterns source].
  rewrite sql_at_drop_table; [discriminate|].
  unfold wordBefore. cbn [prev]. rewrite prev_of_rev.
  unfold endsInWordChar in Ha. destruct (rev a); [reflexivity|exact Ha].
Qed.

(** A cell in which [<script>alert(1)</script>] occurs matches the
    script-like class. *)
Lemma cellMatches_script_alert (a b : jsstring) :
  cellMatches ScriptLike (a ++ lit "<script>alert(1)</script>" ++ b) = true.
Proof.
  apply cellMatches_reached. cbn [classPattern scriptPatterns source].
  rewrite script_at_alert. discriminate.
Qed.

End CellMatches.

(** ** Sanitising *)

Section Sanitize.

Variable items : list classItem.

(** Removing every match of a one-character class is a filter. *)
Lemma removeMatches_class (s : jsstring) :
  forall (fuel : nat) (p : option codeUnit),
  length s < fuel ->
  removeMatches false (Class false items) fuel p s
  = filter (fun c => negb (classMatches false false items c)) s.
Proof.
  induction s as [|c s IH]; intros fuel p Hfuel;
    (destruct fuel as [|fuel]; [simpl in Hfuel; lia|]).
  - reflexivity.
  - cbn [removeMatches matchRegex rest prev filter length].
    assert (length s < fuel) as Hlt by (simpl in Hfuel; lia).
    destruct (classMatches false false items c); cbn [negb].
    + rewrite eqb_succ_false. now apply IH.
    + f_equal. now apply IH.
Qed.

Lemma replaceWithEmpty_class (s : jsstring) :
  replaceWithEmpty (mkRegExp (Class false items) true false) s
  = filter (fun c => negb (classMatches false false items c)) s.
Proof.
  unfold replaceWithEmpty. cbn [ignoreCase source].
  apply removeMatches_class. lia.
Qed.

End Sanitize.

Section Trim.

Lemma trimStart_head (s : jsstring) :
  match trimStart s with
  | c :: _ => isWhiteSpace c = false
  | [] => True
  end.
Proof.
  induction s as [|c s IH]; simpl; [exact I|].
  destruct (isWhiteSpace c) eqn:E; [exact IH|exact E].
Qed.

Lemma trimStart_fixed (s : jsstring) :
  match s with
  | c :: _ => isWhiteSpace c = false
  | [] => True
  end -> trimStart s = s.
Proof.
  destruct s as [|c s]; simpl; [reflexivity|]. now intros ->.
Qed.

Lemma trimStart_idem (s : jsstring) : trimStart (trimStart s) = trimStart s.
Proof. apply trimStart_fixed, trimStart_head. Qed.

Lemma trimStart_incl (s : jsstring) (c : codeUnit) :
  In c (trimStart s) -> In c s.
Proof.
  induction s as [|d s IH]; simpl; [tauto|].
  destruct (isWhiteSpace d); [right; now apply IH|trivial].
Qed.

(** Trimming the end of a string that starts with a non-blank keeps that
    first character. *)
Lemma trimStart_rev_snoc (s : jsstring) (c : codeUnit) :
  isWhiteSpace c = false ->
  exists t, trimStart (s ++ [c]) = t ++ [c].
Proof.
  intros Hc. induction s as [|d s [t IH]]; simpl.
  - rewrite Hc. now exists [].
  - destruct (isWhiteSpace d); [now exists t|].
    now exists (d :: s).
Qed.

Lemma trimEnd_head (s : jsstring) :
  match s with
  | c :: _ => isWhiteSpace c = false
  | [] => True
  end ->
  match trimEnd s with
  | c :: _ => isWhiteSpace c = false
  | [] => True
  end.
Proof.
  destruct s as [|c s]; [intros _; exact I|]. intros Hc.
  unfold trimEnd. simpl rev.
  destruct (trimStart_rev_snoc (rev s) c Hc) as [t ->].
  rewrite rev_app_distr. simpl. exact Hc.
Qed.

Lemma trimEnd_idem (s : jsstring) : trimEnd (trimEnd s) = trimEnd s.
Proof.
  unfold trimEnd. now rewrite rev_involutive, trimStart_idem.
Qed.

Lemma trim_idem (s : jsstring) : trim (trim s) = trim s.
Proof.
  unfold trim.
  rewrite (trimStart_fixed (trimEnd (trimStart s))).
  - apply trimEnd_idem.
  - apply trimEnd_head, trimStart_head.
Qed.

Lemma trim_incl (s : jsstring) (c : codeUnit) : In c (trim s) -> In c s.
Proof.
  unfold trim, trimEnd. intros H.
  apply in_rev, trimStart_incl in H. apply in_rev in H.
  now apply trimStart_incl.
Qed.

End Trim.

Lemma filter_fixed {A : Type} (f : A -> bool) (l : list A) :
  (forall a, In a l -> f a = true) -> filter f l = l.
Proof.
  induction l as [|a l IH]; intros H; simpl; [reflexivity|].
  rewrite (H a) by now left. f_equal. apply IH. intros b Hb. apply H.
  now right.
Qed.

Section SanitizeCell.

Lemma stripped_split (c : codeUnit) :
  negb (isStripped c)
  = negb (classMatches false false [CChar (chr "<"); CChar (chr ">")] c)
    && negb (classMatches false false
               [CChar (chr "'"); CChar 34%N; CChar (chr "`");
                CChar (chr ";")] c).
Proof.
  unfold isStripped, classMatches.
  cbn [existsb itemMatches xorb canonicalize andb].
  rewrite !orb_false_r, !negb_orb, !andb_assoc.
  now rewrite !(N.eqb_sym c).
Qed.

(** [sanitizeCell] drops the six characters and trims the result. *)
Lemma sanitizeCell_spec (x : jsstring) :
  sanitizeCell x = trim (filter (fun c => negb (isStripped c)) x).
Proof.
  unfold sanitizeCell, quotePattern, anglePattern.
  rewrite !replaceWithEmpty_class. f_equal.
  induction x as [|c x IH]; [reflexivity|]. cbn [filter].
  rewrite stripped_split.
  destruct (negb (classMatches false false _ c)); cbn [andb filter];
    [|exact IH].
  destruct (negb (classMatches false false _ c)); [|exact IH].
  now rewrite IH.
Qed.

End SanitizeCell.

(** ** The header check *)

Section HeaderCheck.

Lemma checkHeader_from (hs : list jsstring) :
  forall (i : nat) (errs : list jsstring),
  forEachFrom checkHeader i hs errs
  = errs ++ forEachFrom checkHeader i hs [].
Proof.
  induction hs as [|h hs IH]; intros i errs; cbn [forEachFrom].
  - now rewrite app_nil_r.
  - rewrite (IH (S i) (checkHeader h i errs)), (IH (S i) (checkHeader h i [])).
    unfold checkHeader. destruct (negb _); cbn [app].
    + now rewrite <- app_assoc.
    + reflexivity.
Qed.

Lemma checkHeader_In (hs : list jsstring) (m : jsstring) :
  forall i : nat,
  In m (forEachFrom checkHeader i hs [])
  <-> exists j h, nth_error hs j = Some h /\ headerWellFormed h = false
                  /\ m = headerMessage (i + j) h.
Proof.
  induction hs as [|h hs IH]; intros i; cbn [forEachFrom].
  - split; [intros []|]. intros (j & h & Hj & _). now destruct j.
  - rewrite checkHeader_from, in_app_iff, IH. unfold checkHeader.
    rewrite headerPattern_test. split.
    + intros [Hm|(j & h' & Hj & Hw & ->)].
      * destruct (headerWellFormed h) eqn:Hw; cbn in Hm; [tauto|].
        destruct Hm as [<-|[]]. exists 0, h. rewrite Nat.add_0_r. auto.
      * exists (S j), h'. rewrite Nat.add_succ_r. auto.
    + intros ([|j] & h' & Hj & Hw & ->); cbn in Hj.
      * injection Hj as ->. left. rewrite Hw, Nat.add_0_r. now left.
      * right. exists j, h'. rewrite Nat.add_succ_r. auto.
Qed.

Lemma headerViolations_In (hs : list jsstring) (m : jsstring) :
  In m (headerViolations hs)
  <-> exists j h, nth_error hs j = Some h /\ headerWellFormed h = false
                  /\ m = headerMessage j h.
Proof. apply (checkHeader_In hs m 0). Qed.

End HeaderCheck.

(** ** The injection scan *)

Section Scan.

Lemma scanRow_fold (rowIndex : nat) (row : list jsstring) :
  forall (j : nat) (st : scanState),
  forEachFrom (scanCell rowIndex) j row st
  = fold_left scanStep
      (map (fun ic => (rowIndex, fst ic, snd ic)) (indexFrom j row)) st.
Proof.
  induction row as [|cell row IH]; intros j st; [reflexivity|].
  cbn [forEachFrom indexFrom map fold_left]. apply IH.
Qed.

Lemma scan_fold_from (data : list (list jsstring)) :
  forall (i : nat) (st : scanState),
  forEachFrom scanRow i data st
  = fold_left scanStep
      (flat_map (fun ir => map (fun ic => (fst ir, fst ic, snd ic))
                             (indexFrom 0 (snd ir)))
                (indexFrom i data)) st.
Proof.
  induction data as [|row data IH]; intros i st; [reflexivity|].
  cbn [forEachFrom indexFrom flat_map fst snd]. rewrite fold_left_app, IH.
  f_equal. unfold scanRow, forEach. apply scanRow_fold.
Qed.

(** The two nested loops visit the cells in [cellsInScanOrder]. *)
Lemma scan_fold (data : list (list jsstring)) (st : scanState) :
  forEach scanRow data st = fold_left scanStep (cellsInScanOrder data) st.
Proof. apply scan_fold_from. Qed.

Lemma scanCell_errors (r c : nat) (cell : jsstring) (st : scanState) :
  exists hits,
    scanErrors (scanCell r cell c st) = scanErrors st ++ hits
    /\ (forall m, In m hits -> exists cls, m = classMessage cls r c)
    /\ forall errs,
         scanCell r cell c (mkScan errs (sqlLastIndex st) (scriptLastIndex st))
         = mkScan (errs ++ hits) (sqlLastIndex (scanCell r cell c st))
                  (scriptLastIndex (scanCell r cell c st)).
Proof.
  unfold scanCell. cbn [sqlLastIndex scriptLastIndex scanErrors].
  destruct (regexTest sqlPatterns (sqlLastIndex st) cell) as [[|] i1];
    destruct (regexTest scriptPatterns (scriptLastIndex st) cell)
      as [[|] i2]; cbn [scanErrors sqlLastIndex scriptLastIndex].
  - exists [sqlMessage r c; scriptMessage r c]. split; [|split].
    + now rewrite <- app_assoc.
    + intros m [<-|[<-|[]]]; [now exists SqlLike|now exists ScriptLike].
    + intros errs. now rewrite <- app_assoc.
  - exists [sqlMessage r c]. split; [|split]; trivial.
    intros m [<-|[]]. now exists SqlLike.
  - exists [scriptMessage r c]. split; [|split]; trivial.
    intros m [<-|[]]. now exists ScriptLike.
  - exists []. split; [|split].
    + now rewrite app_nil_r.
    + intros m [].
    + intros errs. now rewrite app_nil_r.
Qed.

(** The scan only appends, and what it appends does not depend on the
    violations found before it. *)
Lemma scan_errors (cells : list (nat * nat * jsstring)) :
  forall st : scanState,
  exists hits,
    scanErrors (fold_left scanStep cells st) = scanErrors st ++ hits
    /\ (forall m, In m hits -> exists cls r c, m = classMessage cls r c)
    /\ forall errs,
         scanErrors
           (fold_left scanStep cells
              (mkScan errs (sqlLastIndex st) (scriptLastIndex st)))
         = errs ++ hits.
Proof.
  induction cells as [|[[r c] cell] cells IH]; intros st; cbn [fold_left].
  - exists []. split; [|split].
    + now rewrite app_nil_r.
    + intros m [].
    + intros errs. cbn. now rewrite app_nil_r.
  - unfold scanStep at 2 4. cbn [fst snd].
    destruct (scanCell_errors r c cell st) as (h1 & E1 & M1 & S1).
    destruct (IH (scanCell r cell c st)) as (h2 & E2 & M2 & S2).
    exists (h1 ++ h2). split; [|split].
    + now rewrite E2, E1, <- app_assoc.
    + intros m Hm. apply in_app_iff in Hm. destruct Hm as [Hm|Hm].
      * destruct (M1 m Hm) as [cls ->]. now exists cls, r, c.
      * now apply M2.
    + intros errs. rewrite S1, S2. now rewrite <- app_assoc.
Qed.

Lemma scan_keeps (cells : list (nat * nat * jsstring)) (st : scanState)
    (m : jsstring) :
  In m (scanErrors st) -> In m (scanErrors (fold_left scanStep cells st)).
Proof.
  intros Hm. destruct (scan_errors cells st) as (hits & -> & _).
  apply in_app_iff. now left.
Qed.

Lemma classPattern_global (cls : patternClass) :
  global (classPattern cls) = true.
Proof. now destruct cls. Qed.

(** After a cell that does not match a class, the pattern of the class
    starts its next search at 0. *)
Lemma scanCell_quiet (cls : patternClass) (r c : nat) (cell : jsstring)
    (st : scanState) :
  cellMatches cls cell = false ->
  classLastIndex cls (scanCell r cell c st) = 0.
Proof.
  unfold cellMatches. intros Hq.
  pose proof (@regexTest_absent (classPattern cls) (classPattern_global cls)
                (classLastIndex cls st) cell Hq) as E.
  unfold scanCell. destruct cls; cbn [classPattern classLastIndex] in *.
  - rewrite E.
    destruct (regexTest scriptPatterns (scriptLastIndex st) cell).
    reflexivity.
  - destruct (regexTest sqlPatterns (sqlLastIndex st) cell).
    rewrite E. reflexivity.
Qed.

Lemma scan_quiet (cls : patternClass) (before : list (nat * nat * jsstring))
    (st : scanState) :
  quietBefore cls before -> classLastIndex cls st = 0 ->
  classLastIndex cls (fold_left scanStep before st) = 0.
Proof.
  unfold quietBefore.
  destruct before as [|x before _] using rev_ind; [trivial|].
  rewrite rev_app_distr, fold_left_app. cbn [rev app fold_left].
  destruct x as [[r c] cell]. intros Hq _. unfold scanStep at 1.
  cbn [fst snd]. now apply scanCell_quiet.
Qed.

(** A matching cell met with [lastIndex] at 0 is reported. *)
Lemma scanCell_hit (cls : patternClass) (r c : nat) (cell : jsstring)
    (st : scanState) :
  classLastIndex cls st = 0 -> cellMatches cls cell = true ->
  In (classMessage cls r c) (scanErrors (scanCell r cell c st)).
Proof.
  unfold cellMatches, scanCell. intros H0 Hm.
  destruct cls; cbn [classPattern classLastIndex classMessage] in *;
    rewrite H0.
  - destruct (regexTest sqlPatterns 0 cell) as [b i]. cbn in Hm. subst b.
    destruct (regexTest scriptPatterns (scriptLastIndex st) cell) as [[|] j];
      cbn [scanErrors]; rewrite ?in_app_iff; cbn; tauto.
  - destruct (regexTest sqlPatterns (sqlLastIndex st) cell) as [b' i'].
    destruct (regexTest scriptPatterns 0 cell) as [b i]. cbn in Hm. subst b.
    cbn [scanErrors]. rewrite in_app_iff. cbn. tauto.
Qed.

Lemma scan_reports (cls : patternClass) (r c : nat) (cell : jsstring)
    (before after : list (nat * nat * jsstring)) (errs : list jsstring) :
  quietBefore cls before -> cellMatches cls cell = true ->
  In (classMessage cls r c)
     (scanErrors (fold_left scanStep (before ++ (r, c, cell) :: after)
                    (mkScan errs 0 0))).
Proof.
  intros Hq Hm. rewrite fold_left_app. cbn [fold_left].
  apply scan_keeps. unfold scanStep at 2. cbn [fst snd].
  apply scanCell_hit; trivial. apply scan_quiet; trivial. now destruct cls.
Qed.

End Scan.

(** ** The validator as a whole *)

Section Validator.

Context `{HostLocale}.

(** On a table with rows the three checks all run, each adding to what the
    one before it found. *)
Lemma validate_rows (data : list (list jsstring)) :
  data <> [] ->
  validateCSVContent data
  = let errs := rowLimitViolations data ++ headerViolations (hd [] data)
                ++ injectionViolations data in
    mkResult (Nat.eqb (length errs) 0) errs.
Proof.
  intros Hne. unfold validateCSVContent.
  assert (Nat.eqb (length data) 0 = false) as ->
    by (destruct data; [congruence|reflexivity]).
  cbv zeta.
  change (if (MAX_ROWS <? N.of_nat (length data))%N
          then [rowLimitMessage] else [])
    with (rowLimitViolations data).
  unfold injectionViolations. rewrite !scan_fold.
  destruct (scan_errors (cellsInScanOrder data) (mkScan [] 0 0))
    as (hits & E & _ & S).
  cbn [scanErrors sqlLastIndex scriptLastIndex app] in E, S.
  rewrite E, S. unfold headerViolations, forEach.
  rewrite checkHeader_from, <- app_assoc. reflexivity.
Qed.

Lemma validate_rows_errors (data : list (list jsstring)) :
  data <> [] ->
  errors (validateCSVContent data)
  = rowLimitViolations data ++ headerViolations (hd [] data)
    ++ injectionViolations data.
Proof. intros Hne. now rewrite validate_rows. Qed.

Lemma cells_rows (data : list (list jsstring)) :
  cellsInScanOrder data <> [] -> data <> [].
Proof. intros Hc ->. now apply Hc. Qed.

(** A matching cell is reported when the cell visited just before it does
    not match the same class. *)
Lemma validate_reports (cls : patternClass) (data : list (list jsstring))
    (r c : nat) (cell : jsstring)
    (before after : list (nat * nat * jsstring)) :
  cellsInScanOrder data = before ++ (r, c, cell) :: after ->
  quietBefore cls before -> cellMatches cls cell = true ->
  In (classMessage cls r c) (errors (validateCSVContent data)).
Proof.
  intros Hcells Hq Hm. rewrite validate_rows_errors.
  - rewrite !in_app_iff. right. right. unfold injectionViolations.
    rewrite scan_fold, Hcells. now apply scan_reports.
  - apply cells_rows. rewrite Hcells. now destruct before.
Qed.

End Validator.

Section Messages.

Lemma headerMessage_not_class (i : nat) (h : jsstring) (cls : patternClass)
    (r c : nat) :
  headerMessage i h <> classMessage cls r c.
Proof. destruct cls; discriminate. Qed.

Lemma headerMessage_not_rowLimit `{HostLocale} (i : nat) (h : jsstring) :
  headerMessage i h <> rowLimitMessage.
Proof. discriminate. Qed.

Lemma headerMessage_inj (i j : nat) (h g : jsstring) :
  headerMessage i h = headerMessage j g -> i = j /\ h = g.
Proof.
  unfold headerMessage. intros E. apply app_inv_head in E.
  change (lit ": " ++ dquote ++ h ++ dquote)
    with (chr ":" :: (chr " " :: dquote ++ h ++ dquote)) in E.
  change (lit ": " ++ dquote ++ g ++ dquote)
    with (chr ":" :: (chr " " :: dquote ++ g ++ dquote)) in E.
  apply digits_prefix_inj in E;
    [|apply numberToString_digits|apply numberToString_digits|reflexivity].
  destruct E as [En Eh]. apply numberToString_inj in En.
  injection Eh as Eh. apply app_inv_tail in Eh. split; [lia|exact Eh].
Qed.

End Messages.

Lemma indexFrom_In {A : Type} (l : list A) (a : A) :
  forall i k : nat,
  In (i, a) (indexFrom k l) <-> exists j, i = k + j /\ nth_error l j = Some a.
Proof.
  induction l as [|b l IH]; intros i k; cbn [indexFrom In].
  - split; [intros []|]. intros (j & _ & Hj). now destruct j.
  - rewrite IH. split.
    + intros [E|(j & -> & Hj)].
      * injection E as -> ->. exists 0. split; [lia|reflexivity].
      * exists (S j). split; [lia|exact Hj].
    + intros ([|j] & -> & Hj); cbn in Hj.
      * injection Hj as ->. left. f_equal. lia.
      * right. exists j. split; [lia|exact Hj].
Qed.

(** The indices given by [cellsInScanOrder] are those of the table. *)
Lemma cellsInScanOrder_In (data : list (list jsstring)) (r c : nat)
    (cell : jsstring) :
  In (r, c, cell) (cellsInScanOrder data)
  <-> exists row, nth_error data r = Some row /\ nth_error row c = Some cell.
Proof.
  unfold cellsInScanOrder. rewrite in_flat_map. split.
  - intros ([i row] & Hrow & Hcell). cbn [fst snd] in Hcell.
    apply in_map_iff in Hcell. destruct Hcell as ([j x] & E & Hx).
    cbn [fst snd] in E. injection E as -> -> ->.
    apply indexFrom_In in Hrow. destruct Hrow as (i' & -> & Hrow).
    apply indexFrom_In in Hx. destruct Hx as (j' & -> & Hx).
    now exists row.
  - intros (row & Hrow & Hcell). exists (r, row). split.
    + apply indexFrom_In. now exists r.
    + cbn [fst snd]. apply in_map_iff. exists (c, cell). split; [reflexivity|].
      apply indexFrom_In. now exists c.
Qed.

Lemma headerWellFormed_false (h : jsstring) :
  headerWellFormed h = false
  <-> h = [] \/ exists c, In c h /\ headerChar c = false.
Proof.
  destruct h as [|c h]; cbn [headerWellFormed].
  - split; [now left|reflexivity].
  - split.
    + intros Hf. right.
      assert (~ forallb headerChar (c :: h) = true) as Hn by congruence.
      rewrite forallb_forall in Hn.
      destruct (existsb (fun x => negb (headerChar x)) (c :: h)) eqn:Ex.
      * apply existsb_exists in Ex. destruct Ex as (x & Hx & Hb).
        exists x. split; [exact Hx|]. now destruct (headerChar x).
      * exfalso. apply Hn. intros x Hx.
        destruct (headerChar x) eqn:Hb; [reflexivity|].
        assert (existsb (fun x => negb (headerChar x)) (c :: h) = true)
          as Ht by (apply existsb_exists; exists x; now rewrite Hb).
        congruence.
    + intros [Hnil|(x & Hx & Hb)]; [discriminate|].
      destruct (forallb headerChar (c :: h)) eqn:Hf; [|reflexivity].
      rewrite forallb_forall in Hf. rewrite (Hf x Hx) in Hb. discriminate.
Qed.

Lemma slice_0_5 {A : Type} (l : list A) : slice 0 5 l = firstn 5 l.
Proof.
  unfold slice. cbn [Z.ltb Z.compare].
  rewrite (Z.min_l 0) by lia. cbn [Z.to_nat skipn].
  destruct (Z.min_spec 5 (Z.of_nat (length l))) as [[Hlt ->]|[Hge ->]].
  - reflexivity.
  - rewrite Z.sub_0_r, Z.max_l, Nat2Z.id by lia.
    rewrite firstn_all. symmetry. apply firstn_all2. lia.
Qed.

(** * The claims *)

Section Claims.

Context `{HostLocale}.

(** C1, as amended.  The injection scan visits every cell of every row,
    the header row included, in row-major order, and tests it against both
    pattern classes.  A cell that matches a class contributes a violation
    naming its 1-based row and column whenever the cell visited just before
    it does not match that class.  Under the same proviso a cell in which
    [DROP TABLE] occurs without a word character directly before it yields
    a SQL-injection violation, and a cell in which
    [<script>alert(1)</script>] occurs yields a script-injection
    violation. *)
Theorem C1_injection_scan (data : list (list jsstring)) (r c : nat)
    (cell : jsstring) (before after : list (nat * nat * jsstring)) :
  cellsInScanOrder data = before ++ (r, c, cell) :: after ->
  (exists row, nth_error data r = Some row /\ nth_error row c = Some cell)
  /\ (forall cls, quietBefore cls before -> cellMatches cls cell = true ->
        In (classMessage cls r c) (errors (validateCSVContent data)))
  /\ (quietBefore SqlLike before ->
      (exists a b, cell = a ++ lit "DROP TABLE" ++ b
                   /\ endsInWordChar a = false) ->
      In (sqlMessage r c) (errors (validateCSVContent data)))
  /\ (quietBefore ScriptLike before ->
      (exists a b, cell = a ++ lit "<script>alert(1)</script>" ++ b) ->
      In (scriptMessage r c) (errors (validateCSVContent data))).
Proof.
  intros Hcells. split; [|split; [|split]].
  - apply cellsInScanOrder_In. rewrite Hcells. apply in_elt.
  - intros cls Hq Hm. eapply validate_reports; eassumption.
  - intros Hq (a & b & -> & Ha).
    apply (validate_reports SqlLike) with (1 := Hcells); [exact Hq|].
    now apply cellMatches_drop_table.
  - intros Hq (a & b & ->).
    apply (validate_reports ScriptLike) with (1 := Hcells); [exact Hq|].
    apply cellMatches_script_alert.
Qed.

(** C2, as amended.  In a table with at least one row, a cell of the first
    row causes a violation naming its 1-based column and its value exactly
    when it is empty or contains a character that is not a letter, a digit,
    an underscore or white space. *)
Theorem C2_header_check (data : list (list jsstring)) (i : nat)
    (h : jsstring) :
  data <> [] -> nth_error (hd [] data) i = Some h ->
  (In (headerMessage i h) (errors (validateCSVContent data))
   <-> h = [] \/ exists c, In c h /\ headerChar c = false).
Proof.
  intros Hne Hi. rewrite <- headerWellFormed_false, validate_rows_errors by trivial.
  rewrite !in_app_iff, headerViolations_In. split.
  - intros [Hrow|[(j & g & Hj & Hw & E)|Hscan]].
    + unfold rowLimitViolations in Hrow.
      destruct (MAX_ROWS <? _)%N; [|destruct Hrow].
      destruct Hrow as [E|[]]. symmetry in E.
      now apply headerMessage_not_rowLimit in E.
    + apply headerMessage_inj in E. destruct E as [-> ->]. exact Hw.
    + unfold injectionViolations in Hscan. rewrite scan_fold in Hscan.
      destruct (scan_errors (cellsInScanOrder data) (mkScan [] 0 0))
        as (hits & E & M & _).
      rewrite E in Hscan. cbn [scanErrors app] in Hscan.
      destruct (M _ Hscan) as (cls & r & c & Em).
      now apply headerMessage_not_class in Em.
  - intros Hw. right. left. now exists i, h.
Qed.

(** C3, as amended.  A file whose name does not end in [.csv], compared
    case-sensitively, never reaches the parser; it is turned away as an
    invalid file type when its size is at most 10,485,760 bytes (a larger
    one is turned away for its size first). *)
Theorem C3_extension_guard (f : File) :
  (~ exists p, name f = p ++ lit ".csv") ->
  ((size f <= MAX_FILE_SIZE)%N -> processFile f = [invalidTypeToast])
  /\ (forall g, ~ In (PapaParse g) (processFile f))
  /\ endsWith (lit "data.CSV") (lit ".csv") = false.
Proof.
  intros Hext.
  assert (endsWith (name f) (lit ".csv") = false) as Hends.
  { destruct (endsWith (name f) (lit ".csv")) eqn:E; [|reflexivity].
    apply endsWith_spec in E. contradiction. }
  unfold processFile. rewrite Hends. cbn [negb].
  split; [|split]; [| |reflexivity].
  - intros Hsize. apply N.ltb_ge in Hsize. now rewrite Hsize.
  - intros g. destruct (MAX_FILE_SIZE <? size f)%N;
      intros [E|[]]; discriminate E.
Qed.

(** C4.  A file of more than 10,485,760 bytes is turned away as too large
    and the parser is not called; a file of exactly 10,485,760 bytes is
    not turned away for its size. *)
Theorem C4_size_guard (f : File) :
  MAX_FILE_SIZE = 10485760%N
  /\ ((MAX_FILE_SIZE < size f)%N ->
      processFile f = [tooLargeToast]
      /\ forall g, ~ In (PapaParse g) (processFile f))
  /\ (size f = MAX_FILE_SIZE -> ~ In tooLargeToast (processFile f)).
Proof.
  split; [reflexivity|]. unfold processFile. split.
  - intros Hsize. apply N.ltb_lt in Hsize. rewrite Hsize.
    split; [reflexivity|]. intros g [E|[]]. discriminate E.
  - intros ->. rewrite N.ltb_irrefl.
    destruct (negb _); intros HIn;
      repeat (destruct HIn as [E|HIn]; [discriminate E|]); destruct HIn.
Qed.

(** C5.  On a table without rows [validateCSVContent] returns at once:
    the result is invalid and its only violation is [CSV file is empty].
    On every other table the row-limit check, the header check and the
    injection scan all run and the report is what they found, in that
    order. *)
Theorem C5_empty_table (data : list (list jsstring)) :
  (length data = 0 ->
   validateCSVContent data = mkResult false [lit "CSV file is empty"])
  /\ (length data <> 0 ->
      errors (validateCSVContent data)
      = rowLimitViolations data ++ headerViolations (hd [] data)
        ++ injectionViolations data).
Proof.
  split.
  - intros Hlen. unfold validateCSVContent. now rewrite Hlen.
  - intros Hlen. apply validate_rows_errors. now destruct data.
Qed.

(** C6.  A table of more than 100,000 rows gets the violation that names
    the row limit, and the header check and the injection scan still run:
    the report is that violation followed by what those two find, so an
    ill-formed header cell is reported next to the row limit, and so is a
    matching cell. *)
Theorem C6_row_limit (data : list (list jsstring)) :
  (MAX_ROWS < N.of_nat (length data))%N ->
  MAX_ROWS = 100000%N
  /\ errors (validateCSVContent data)
     = (lit "CSV exceeds maximum row limit of " ++ toLocaleString MAX_ROWS)
       :: headerViolations (hd [] data) ++ injectionViolations data
  /\ (forall i h, nth_error (hd [] data) i = Some h ->
        headerWellFormed h = false ->
        In rowLimitMessage (errors (validateCSVContent data))
        /\ In (headerMessage i h) (errors (validateCSVContent data)))
  /\ (forall cls r c cell before after,
        cellsInScanOrder data = before ++ (r, c, cell) :: after ->
        quietBefore cls before -> cellMatches cls cell = true ->
        In rowLimitMessage (errors (validateCSVContent data))
        /\ In (classMessage cls r c) (errors (validateCSVContent data))).
Proof.
  intros Hrows. split; [reflexivity|].
  assert (data <> []) as Hne by (intros ->; cbn in Hrows; lia).
  assert (errors (validateCSVContent data)
          = rowLimitMessage
            :: headerViolations (hd [] data) ++ injectionViolations data)
    as E.
  { rewrite validate_rows_errors by trivial. unfold rowLimitViolations.
    apply N.ltb_lt in Hrows. now rewrite Hrows. }
  split; [exact E|]. split.
  - intros i h Hi Hw. rewrite E. split; [now left|].
    right. apply in_app_iff. left. apply headerViolations_In.
    now exists i, h.
  - intros cls r c cell before after Hcells Hq Hm. split.
    + rewrite E. now left.
    + eapply validate_reports; eassumption.
Qed.

(** C7.  [sanitizeCell] removes the characters [<], [>], the apostrophe,
    the double quote, the backtick and [;], then trims white space at both
    ends; applying it twice is the same as applying it once. *)
Theorem C7_sanitize_idempotent (x : jsstring) :
  sanitizeCell x = trim (filter (fun c => negb (isStripped c)) x)
  /\ sanitizeCell (sanitizeCell x) = sanitizeCell x.
Proof.
  split; [apply sanitizeCell_spec|].
  rewrite !sanitizeCell_spec.
  set (y := filter (fun c => negb (isStripped c)) x).
  rewrite (filter_fixed (fun c => negb (isStripped c)) (trim y)).
  - apply trim_idem.
  - intros c Hc. apply trim_incl in Hc. unfold y in Hc.
    apply filter_In in Hc. tauto.
Qed.

(** C8.  For a table that passes validation the preview handed to the
    component is made of the first [min 5 n] rows of the sanitised table,
    [n] being its number of rows, each one as it is in that table. *)
Theorem C8_preview (data : list (list jsstring)) :
  isValid (validateCSVContent data) = true ->
  exists preview,
    parseComplete data
    = [SetPreview preview; SetIsValidating false;
       Toast (lit "File validated")
         (Some (lit "CSV file passed security checks")) false]
    /\ preview = slice 0 5 (map (fun row => map sanitizeCell row) data)
    /\ length preview = Nat.min 5 (length data)
    /\ forall i, i < Nat.min 5 (length data) ->
         nth_error preview i
         = nth_error (map (fun row => map sanitizeCell row) data) i.
Proof.
  intros Hvalid. unfold parseComplete. rewrite Hvalid. cbn [negb].
  eexists. split; [reflexivity|]. split; [reflexivity|].
  rewrite slice_0_5. split.
  - now rewrite length_firstn, length_map.
  - intros i Hi. rewrite nth_error_firstn.
    destruct (Nat.ltb_spec i 5); [reflexivity|lia].
Qed.

(** C9.  In the report of [validateCSVContent], [isValid] is true exactly
    when there is no violation. *)
Theorem C9_valid_iff_no_violation (data : list (list jsstring)) :
  isValid (validateCSVContent data) = true
  <-> errors (validateCSVContent data) = [].
Proof.
  destruct data as [|row data].
  - cbn. split; discriminate.
  - rewrite validate_rows by discriminate. cbn [isValid errors].
    rewrite Nat.eqb_eq. apply length_zero_iff_nil.
Qed.

(** C10.  In a table with at least one row, an empty cell of the first row
    is reported as an invalid header at its column, although it contains
    no character outside the allowed set. *)
Theorem C10_empty_header (data : list (list jsstring)) (i : nat) :
  data <> [] -> nth_error (hd [] data) i = Some [] ->
  forallb headerChar [] = true
  /\ fst (regexTest headerPattern 0 []) = false
  /\ In (headerMessage i []) (errors (validateCSVContent data)).
Proof.
  intros Hne Hi. split; [reflexivity|]. split; [reflexivity|].
  rewrite validate_rows_errors by trivial.
  rewrite !in_app_iff. right. left. apply headerViolations_In.
  now exists i, [].
Qed.

End Claims.

(** * The claims on concrete tables and files, under the [en-US] locale *)

Section Instances.

#[local] Existing Instance enUS.

(** C1 on a table whose header row holds a [DROP TABLE] cell and whose
    second row holds a script element. *)
Lemma C1_injection_scan_witness :
  In (sqlMessage 0 1)
     (errors (validateCSVContent [[lit "id"; lit "x DROP TABLE y"];
                        [lit "<script>alert(1)</script>"]]))
  /\ In (scriptMessage 1 0)
        (errors (validateCSVContent [[lit "id"; lit "x DROP TABLE y"];
                           [lit "<script>alert(1)</script>"]])).
Proof.
  split.
  - apply (proj1 (proj2
      (@C1_injection_scan enUS
         [[lit "id"; lit "x DROP TABLE y"]; [lit "<script>alert(1)</script>"]]
         0 1 (lit "x DROP TABLE y") [(0, 0, lit "id")]
         [(1, 0, lit "<script>alert(1)</script>")] eq_refl)) SqlLike).
    + vm_compute. reflexivity.
    + vm_compute. reflexivity.
  - apply (proj2 (proj2 (proj2
      (@C1_injection_scan enUS
         [[lit "id"; lit "x DROP TABLE y"]; [lit "<script>alert(1)</script>"]]
         1 0 (lit "<script>alert(1)</script>")
         [(0, 0, lit "id"); (0, 1, lit "x DROP TABLE y")] [] eq_refl)))).
    + vm_compute. reflexivity.
    + exists [], []. vm_compute. reflexivity.
Defined.

(** C1 as stated fails twice.  [AIRDROP TABLE] contains [DROP TABLE] and
    is not reported, the keyword not being a whole word there.  And of two
    neighbouring [DROP TABLE] cells, each of which matches the SQL-like
    class, only the first is reported: the second search starts at the
    [lastIndex] the first one left. *)
Lemma C1_as_stated_counterexample :
  (lit "AIRDROP TABLE" = lit "AIR" ++ lit "DROP TABLE" ++ []
   /\ nth_error [[lit "AIRDROP TABLE"]] 0 = Some [lit "AIRDROP TABLE"]
   /\ ~ In (sqlMessage 0 0) (errors (validateCSVContent [[lit "AIRDROP TABLE"]])))
  /\ (cellMatches SqlLike (lit "DROP TABLE") = true
      /\ nth_error [lit "DROP TABLE"; lit "DROP TABLE"] 1
         = Some (lit "DROP TABLE")
      /\ errors (validateCSVContent [[lit "DROP TABLE"; lit "DROP TABLE"]])
         = [sqlMessage 0 0]
      /\ ~ In (sqlMessage 0 1)
             (errors (validateCSVContent [[lit "DROP TABLE"; lit "DROP TABLE"]]))).
Proof.
  repeat split; try (vm_compute; reflexivity).
  - vm_compute. intros [].
  - vm_compute. intros [E|[]]. discriminate E.
Qed.

(** C2 on a header row with a hyphen in its second cell. *)
Lemma C2_header_check_witness :
  In (headerMessage 1 (lit "na-me"))
     (errors (validateCSVContent [[lit "id"; lit "na-me"]; [lit "1"; lit "Ann"]])).
Proof.
  apply (proj2 (@C2_header_check enUS
                  [[lit "id"; lit "na-me"]; [lit "1"; lit "Ann"]] 1
                  (lit "na-me") ltac:(discriminate) eq_refl)).
  right. exists (chr "-"). split; [vm_compute; tauto|reflexivity].
Defined.

(** C2 as stated fails twice.  A header cell with a tab in it contains a
    character that is no letter, digit, underscore or space, and is
    accepted; an empty header cell contains no other character, and is
    reported. *)
Lemma C2_as_stated_counterexample :
  (existsb (fun c => negb (plainHeaderChar c)) (lit "a" ++ [9%N] ++ lit "b")
   = true
   /\ errors (validateCSVContent [[lit "a" ++ [9%N] ++ lit "b"]]) = [])
  /\ (forallb plainHeaderChar [] = true
      /\ In (headerMessage 0 []) (errors (validateCSVContent [[ [] ]]))).
Proof.
  repeat split; try (vm_compute; reflexivity).
  vm_compute. now left.
Qed.

(** C3 on a small text file. *)
Lemma C3_extension_guard_witness :
  processFile (mkFile (lit "notes.txt") 2048) = [invalidTypeToast]
  /\ ~ In (PapaParse (mkFile (lit "notes.txt") 2048))
          (processFile (mkFile (lit "notes.txt") 2048)).
Proof.
  assert (~ exists p, name (mkFile (lit "notes.txt") 2048) = p ++ lit ".csv")
    as Hext.
  { intros Hp. apply endsWith_spec in Hp. vm_compute in Hp. discriminate Hp. }
  split.
  - apply (proj1 (C3_extension_guard (mkFile (lit "notes.txt") 2048) Hext)).
    vm_compute. discriminate.
  - apply (proj1 (proj2
             (C3_extension_guard (mkFile (lit "notes.txt") 2048) Hext))).
Defined.

(** C3 as stated fails on a text file of more than 10,485,760 bytes: it is
    turned away for its size, not for its name. *)
Lemma C3_as_stated_counterexample :
  endsWith (name (mkFile (lit "notes.txt") 10485761)) (lit ".csv") = false
  /\ processFile (mkFile (lit "notes.txt") 10485761) = [tooLargeToast]
  /\ ~ In invalidTypeToast (processFile (mkFile (lit "notes.txt") 10485761)).
Proof.
  repeat split; try (vm_compute; reflexivity).
  vm_compute. intros [E|[]]. discriminate E.
Qed.

(** C4 on files of 10,485,761 and of 10,485,760 bytes. *)
Lemma C4_size_guard_witness :
  processFile (mkFile (lit "big.csv") 10485761) = [tooLargeToast]
  /\ ~ In tooLargeToast (processFile (mkFile (lit "edge.csv") 10485760)).
Proof.
  split.
  - apply (proj1 (proj2 (C4_size_guard (mkFile (lit "big.csv") 10485761)))).
    vm_compute. reflexivity.
  - apply (proj2 (proj2 (C4_size_guard (mkFile (lit "edge.csv") 10485760)))).
    vm_compute. reflexivity.
Defined.

(** C5 on the table without rows and on a one-row table. *)
Lemma C5_empty_table_witness :
  validateCSVContent [] = mkResult false [lit "CSV file is empty"]
  /\ errors (validateCSVContent [[lit "a;b"]])
     = @rowLimitViolations enUS [[lit "a;b"]]
       ++ headerViolations (hd [] [[lit "a;b"]])
       ++ injectionViolations [[lit "a;b"]].
Proof.
  split.
  - apply (proj1 (@C5_empty_table enUS [])). vm_compute. reflexivity.
  - apply (proj2 (@C5_empty_table enUS [[lit "a;b"]])).
    vm_compute. discriminate.
Defined.

(** C6 on a table of 100,001 rows, each of them the one cell [a-b]. *)
Lemma C6_row_limit_witness :
  In (lit "CSV exceeds maximum row limit of 100,000")
     (errors (validateCSVContent (repeat [lit "a-b"] (N.to_nat 100001))))
  /\ In (headerMessage 0 (lit "a-b"))
        (errors (validateCSVContent (repeat [lit "a-b"] (N.to_nat 100001)))).
Proof.
  assert (MAX_ROWS
          < N.of_nat (length (repeat [lit "a-b"] (N.to_nat 100001))))%N
    as Hrows.
  { rewrite repeat_length, N2Nat.id. vm_compute. reflexivity. }
  apply (proj1 (proj2 (proj2
           (@C6_row_limit enUS (repeat [lit "a-b"] (N.to_nat 100001)) Hrows)))
           0 (lit "a-b")).
  - vm_compute. reflexivity.
  - vm_compute. reflexivity.
Defined.

(** C8 on the two-row table of the specification's first scenario. *)
Lemma C8_preview_witness :
  exists preview,
    @parseComplete enUS [[lit "id"; lit "name"]; [lit "1"; lit "O'Brien"]]
    = [SetPreview preview; SetIsValidating false;
       Toast (lit "File validated")
         (Some (lit "CSV file passed security checks")) false]
    /\ preview = [[lit "id"; lit "name"]; [lit "1"; lit "OBrien"]].
Proof.
  destruct (@C8_preview enUS
              [[lit "id"; lit "name"]; [lit "1"; lit "O'Brien"]])
    as (preview & E & -> & _).
  - vm_compute. reflexivity.
  - eexists. split; [exact E|]. vm_compute. reflexivity.
Defined.

(** C10 on a header row whose second cell is empty. *)
Lemma C10_empty_header_witness :
  In (headerMessage 1 []) (errors (validateCSVContent [[lit "id"; []]; [lit "1"; lit "x"]])).
Proof.
  apply (proj2 (proj2
    (@C10_empty_header enUS [[lit "id"; []]; [lit "1"; lit "x"]] 1
       ltac:(discriminate) eq_refl))).
Defined.

(** The preview of a valid table of 200 rows has 5 rows, that of a valid
    table of 3 rows has 3. *)
Example preview_200_rows :
  length (slice 0 5 (map (fun row => map sanitizeCell row)
                       (repeat [lit "a"] 200))) = 5.
Proof. vm_compute. reflexivity. Qed.

Example preview_3_rows :
  length (slice 0 5 (map (fun row => map sanitizeCell row)
                       (repeat [lit "a"] 3))) = 3.
Proof. vm_compute. reflexivity. Qed.

End Instances.

(** * Further properties of the validator *)

Section Reports.

Context `{HostLocale}.

Lemma regexTest_hit_from_start (re : RegExp) (i : nat) (s : jsstring) :
  global re = true ->
  fst (regexTest re i s) = true -> fst (regexTest re 0 s) = true.
Proof.
  intros Hg Hi. destruct (fst (regexTest re 0 s)) eqn:E0; [reflexivity|].
  rewrite (@regexTest_absent re Hg i s E0) in Hi. discriminate Hi.
Qed.

Lemma scanCell_sound (r c : nat) (cell : jsstring) (st : scanState)
    (m : jsstring) :
  In m (scanErrors (scanCell r cell c st)) ->
  In m (scanErrors st)
  \/ exists cls, cellMatches cls cell = true /\ m = classMessage cls r c.
Proof.
  unfold scanCell, cellMatches.
  pose proof (@regexTest_hit_from_start sqlPatterns (sqlLastIndex st) cell
                eq_refl) as Hsql.
  pose proof (@regexTest_hit_from_start scriptPatterns (scriptLastIndex st)
                cell eq_refl) as Hscript.
  destruct (regexTest sqlPatterns (sqlLastIndex st) cell) as [[|] i1];
    destruct (regexTest scriptPatterns (scriptLastIndex st) cell)
      as [[|] i2]; cbn [scanErrors fst] in *; rewrite ?in_app_iff; cbn [In];
    intros Hm; repeat destruct Hm as [Hm|Hm]; try tauto;
    try (right; exists SqlLike; now split; [apply Hsql|]);
    try (right; exists ScriptLike; now split; [apply Hscript|]).
Qed.

(** Every violation the scan adds names a cell it visited, and that cell
    matches the class of the violation. *)
Lemma scan_sound (cells : list (nat * nat * jsstring)) :
  forall (st : scanState) (m : jsstring),
  In m (scanErrors (fold_left scanStep cells st)) ->
  In m (scanErrors st)
  \/ exists cls r c cell,
       In (r, c, cell) cells /\ cellMatches cls cell = true
       /\ m = classMessage cls r c.
Proof.
  induction cells as [|[[r c] cell] cells IH]; intros st m Hm;
    cbn [fold_left] in Hm; [now left|].
  apply IH in Hm. destruct Hm as [Hm|(cls & r' & c' & cell' & Hin & Hc & E)].
  - unfold scanStep in Hm. cbn [fst snd] in Hm.
    apply scanCell_sound in Hm. destruct Hm as [Hm|(cls & Hc & E)];
      [now left|].
    right. exists cls, r, c, cell. split; [now left|now split].
  - right. exists cls, r', c', cell'. split; [now right|now split].
Qed.

Lemma scanCell_silent (r c : nat) (cell : jsstring) (st : scanState) :
  (forall cls, cellMatches cls cell = false) ->
  scanCell r cell c st = mkScan (scanErrors st) 0 0.
Proof.
  intros Hq. unfold scanCell.
  rewrite (@regexTest_absent sqlPatterns eq_refl _ _ (Hq SqlLike)).
  rewrite (@regexTest_absent scriptPatterns eq_refl _ _ (Hq ScriptLike)).
  reflexivity.
Qed.

Lemma scan_silent (cells : list (nat * nat * jsstring)) :
  forall st : scanState,
  (forall x, In x cells -> forall cls, cellMatches cls (snd x) = false) ->
  scanErrors (fold_left scanStep cells st) = scanErrors st.
Proof.
  induction cells as [|x cells IH]; intros st Hq; [reflexivity|].
  cbn [fold_left]. rewrite IH by (intros y Hy; apply Hq; now right).
  unfold scanStep. rewrite scanCell_silent by (apply Hq; now left).
  reflexivity.
Qed.

Lemma first_split {A : Type} (P : A -> bool) (l : list A) :
  existsb P l = true ->
  exists before x after,
    l = before ++ x :: after /\ P x = true
    /\ forall y, In y before -> P y = false.
Proof.
  induction l as [|a l IH]; cbn [existsb]; [discriminate|].
  destruct (P a) eqn:Ea; cbn [orb].
  - intros _. exists [], a, l. repeat split; trivial. intros y [].
  - intros Hl. destruct (IH Hl) as (before & x & after & -> & Hx & Hb).
    exists (a :: before), x, after. repeat split; trivial.
    intros y [<-|Hy]; [exact Ea|now apply Hb].
Qed.

Lemma quiet_of_none (cls : patternClass)
    (before : list (nat * nat * jsstring)) :
  (forall y, In y before -> cellMatches cls (snd y) = false) ->
  quietBefore cls before.
Proof.
  intros Hb. unfold quietBefore.
  destruct (rev before) as [|[[r c] cell] t] eqn:E; [exact I|].
  apply (Hb (r, c, cell)). apply in_rev. rewrite E. now left.
Qed.

(** A cell that matches a class makes the scan report something. *)
Lemma scan_catches (cls : patternClass) (data : list (list jsstring))
    (x : nat * nat * jsstring) :
  In x (cellsInScanOrder data) -> cellMatches cls (snd x) = true ->
  injectionViolations data <> [].
Proof.
  intros Hx Hm.
  assert (existsb (fun y => cellMatches cls (snd y)) (cellsInScanOrder data)
          = true) as Hex by (apply existsb_exists; now exists x).
  apply first_split in Hex.
  destruct Hex as (before & [[r c] cell] & after & E & Hy & Hb).
  unfold injectionViolations. rewrite scan_fold, E. intros Hnil.
  pose proof (scan_reports cls r c cell before after []
                (quiet_of_none cls before Hb) Hy) as Hin.
  rewrite Hnil in Hin. destruct Hin.
Qed.

Lemma headerViolations_nil (hs : list jsstring) :
  headerViolations hs = [] <-> forallb headerWellFormed hs = true.
Proof.
  split.
  - intros Hnil. apply forallb_forall. intros h Hh.
    destruct (headerWellFormed h) eqn:Hw; [reflexivity|].
    apply In_nth_error in Hh. destruct Hh as [j Hj].
    assert (In (headerMessage j h) (headerViolations hs)) as Hin
      by (apply headerViolations_In; now exists j, h).
    rewrite Hnil in Hin. destruct Hin.
  - intros Hall. rewrite forallb_forall in Hall.
    destruct (headerViolations hs) as [|m t] eqn:E; [reflexivity|].
    assert (In m (headerViolations hs)) as Hin by (rewrite E; now left).
    apply headerViolations_In in Hin. destruct Hin as (j & h & Hj & Hw & _).
    apply nth_error_In in Hj. rewrite (Hall h Hj) in Hw. discriminate Hw.
Qed.

(** X1.  A table passes validation exactly when it has at least one row and
    at most 100,000, every cell of its first row is a well-formed header,
    and no cell of any row matches the SQL-like or the script-like class:
    the [lastIndex] carried from cell to cell never lets a table with a
    matching cell through. *)
Theorem valid_iff (data : list (list jsstring)) :
  isValid (validateCSVContent data) = true
  <-> data <> []
      /\ (N.of_nat (length data) <= MAX_ROWS)%N
      /\ forallb headerWellFormed (hd [] data) = true
      /\ forall r row c cell cls,
           nth_error data r = Some row -> nth_error row c = Some cell ->
           cellMatches cls cell = false.
Proof.
  destruct data as [|row0 data].
  - cbn. split; [discriminate|]. intros [Hne _]. congruence.
  - set (d := row0 :: data). assert (d <> []) as Hne by discriminate.
    rewrite validate_rows by trivial. cbn [isValid].
    rewrite Nat.eqb_eq, length_zero_iff_nil. split.
    + intros E. apply app_eq_nil in E. destruct E as [Erow E].
      apply app_eq_nil in E. destruct E as [Ehead Escan].
      split; [exact Hne|]. split; [|split].
      * unfold rowLimitViolations in Erow.
        destruct (N.ltb_spec MAX_ROWS (N.of_nat (length d)));
          [discriminate|assumption].
      * now apply headerViolations_nil.
      * intros r row c cell cls Hr Hc.
        destruct (cellMatches cls cell) eqn:Hm; [|reflexivity].
        exfalso. apply (@scan_catches cls d (r, c, cell)); trivial.
        apply cellsInScanOrder_In. now exists row.
    + intros (_ & Hrows & Hhead & Hcells).
      unfold rowLimitViolations. apply N.ltb_ge in Hrows. rewrite Hrows.
      apply headerViolations_nil in Hhead. rewrite Hhead. cbn [app].
      unfold injectionViolations. rewrite scan_fold, scan_silent;
        [reflexivity|].
      intros [[r c] cell] Hx cls. apply cellsInScanOrder_In in Hx.
      destruct Hx as (row & Hr & Hc). cbn [snd]. now apply (Hcells r row c).
Qed.

(** X2.  Every violation in the report of a table with rows is accounted
    for: it is the row-limit message of a table over the limit, or the
    header message of an ill-formed cell of the first row at its column, or
    the message of a cell that exists at the row and column it names and
    matches the class it names. *)
Theorem report_sound (data : list (list jsstring)) (m : jsstring) :
  data <> [] -> In m (errors (validateCSVContent data)) ->
  (m = rowLimitMessage /\ (MAX_ROWS < N.of_nat (length data))%N)
  \/ (exists j h, nth_error (hd [] data) j = Some h
                  /\ headerWellFormed h = false /\ m = headerMessage j h)
  \/ (exists cls r c row cell,
        nth_error data r = Some row /\ nth_error row c = Some cell
        /\ cellMatches cls cell = true /\ m = classMessage cls r c).
Proof.
  intros Hne. rewrite validate_rows_errors by trivial.
  rewrite !in_app_iff. intros [Hm|[Hm|Hm]].
  - left. unfold rowLimitViolations in Hm.
    destruct (N.ltb_spec MAX_ROWS (N.of_nat (length data))); [|destruct Hm].
    destruct Hm as [<-|[]]. now split.
  - right. left. now apply headerViolations_In.
  - right. right. unfold injectionViolations in Hm. rewrite scan_fold in Hm.
    apply scan_sound in Hm.
    destruct Hm as [[]|(cls & r & c & cell & Hin & Hc & ->)].
    apply cellsInScanOrder_In in Hin. destruct Hin as (row & Hr & Hcell).
    now exists cls, r, c, row, cell.
Qed.

End Reports.

(** * What the injection patterns catch *)

Section Coverage.

Lemma match_Str_ci (s : jsstring) :
  forall (w t : jsstring) (p : option codeUnit) (k : continuation),
  sameIgnoringCase w s ->
  matchRegex true (Str s) (mkState p (w ++ t)) k
  = k (mkState (fold_left (fun _ c => Some c) w p) t).
Proof.
  unfold sameIgnoringCase.
  induction s as [|c s IH]; intros [|d w] t p k E; try discriminate E;
    [reflexivity|].
  cbn [map] in E. injection E as Ec Es.
  destruct s as [|c' s].
  - destruct w; [|discriminate Es].
    cbn [Str matchRegex rest app fold_left]. now rewrite Ec, N.eqb_refl.
  - change (Str (c :: c' :: s)) with (Seq (Char c) (Str (c' :: s))).
    cbn [matchRegex rest app fold_left]. rewrite Ec, N.eqb_refl.
    now apply IH.
Qed.

Lemma AltOf_member (ic : bool) (rs : list regex) (r : regex) (x : mstate)
    (k : continuation) :
  In r rs -> matchRegex ic r x k <> None ->
  matchRegex ic (AltOf rs) x k <> None.
Proof.
  induction rs as [|r0 rs IH]; intros Hin Hm; [destruct Hin|].
  destruct rs as [|r1 rs].
  - destruct Hin as [->|[]]. exact Hm.
  - change (AltOf (r0 :: r1 :: rs)) with (Alt r0 (AltOf (r1 :: rs))).
    cbn [matchRegex]. destruct (matchRegex ic r0 x k) eqn:E0; [discriminate|].
    apply IH; trivial. destruct Hin as [->|Hin]; [congruence|exact Hin].
Qed.

Lemma match_Alt_some (ic : bool) (a b : regex) (x : mstate)
    (k : continuation) :
  matchRegex ic a x k <> None \/ matchRegex ic b x k <> None ->
  matchRegex ic (Alt a b) x k <> None.
Proof.
  cbn [matchRegex]. destruct (matchRegex ic a x k); [discriminate|tauto].
Qed.

(** X3.  A cell in which one of [--], [;], [/*], [*/], [xp_], [sp_] occurs
    anywhere, the letters in either case, matches the SQL-like class. *)
Theorem sql_token_caught (tok : string) (a w b : jsstring) :
  In tok sqlTokens -> sameIgnoringCase w (lit tok) ->
  cellMatches SqlLike (a ++ w ++ b) = true.
Proof.
  intros Htok Hw. apply cellMatches_reached.
  cbn [classPattern sqlPatterns source]. unfold sqlSource.
  apply match_Alt_some. right.
  apply AltOf_member with (r := Str (lit tok)).
  - apply in_map_iff. now exists tok.
  - rewrite match_Str_ci by exact Hw. discriminate.
Qed.

Lemma canonical_letter_word (c k : codeUnit) :
  inRange (chr "A") (chr "Z") k = true ->
  canonicalize true c = canonicalize true k -> isWordChar c = true.
Proof.
  intros Hk. unfold canonicalize at 2. cbn [andb].
  replace (inRange (chr "a") (chr "z") k) with false.
  - unfold canonicalize. cbn [andb]. unfold isWordChar.
    destruct (inRange (chr "a") (chr "z") c); [reflexivity|].
    intros ->. rewrite Hk. reflexivity.
  - unfold inRange in *. cbn in *.
    destruct (N.leb_spec 97 k); [|reflexivity].
    destruct (N.leb_spec k 90); [lia|].
    now rewrite andb_false_r in Hk.
Qed.

Lemma keyword_shape (kw : string) (w : jsstring) :
  In kw sqlKeywords -> sameIgnoringCase w (lit kw) ->
  w <> [] /\ forallb isWordChar w = true.
Proof.
  unfold sameIgnoringCase. intros Hkw E.
  assert (forallb (inRange (chr "A") (chr "Z")) (lit kw) = true
          /\ lit kw <> []) as [Hup Hne].
  { unfold sqlKeywords in Hkw. cbn [In] in Hkw.
    repeat destruct Hkw as [<-|Hkw]; try (split; [reflexivity|discriminate]).
    destruct Hkw. }
  split.
  - intros ->. destruct (lit kw); [congruence|discriminate E].
  - clear Hne Hkw. revert w E.
    induction (lit kw) as [|k s IH]; intros [|c w] E; try discriminate E;
      [reflexivity|].
    cbn [map forallb] in *. injection E as Ec Es.
    apply andb_true_iff in Hup. destruct Hup as [Hk Hs].
    rewrite (canonical_letter_word c k Hk Ec). now apply IH.
Qed.

Lemma last_word (w : jsstring) (p : option codeUnit) (t : jsstring) :
  w <> [] -> forallb isWordChar w = true ->
  wordBefore (mkState (fold_left (fun _ c => Some c) w p) t) = true.
Proof.
  intros Hne Hw. unfold wordBefore. cbn [prev]. rewrite prev_of_rev.
  destruct (rev w) as [|c r] eqn:E.
  - apply (f_equal (@rev _)) in E. rewrite rev_involutive in E.
    now destruct Hne.
  - rewrite forallb_forall in Hw. apply Hw, in_rev. rewrite E. now left.
Qed.

(** X4.  A cell in which one of the nine SQL keywords occurs as a whole
    word, in any mix of upper and lower case, matches the SQL-like class. *)
Theorem sql_keyword_caught (kw : string) (a w b : jsstring) :
  In kw sqlKeywords -> sameIgnoringCase w (lit kw) ->
  endsInWordChar a = false -> startsWithWordChar b = false ->
  cellMatches SqlLike (a ++ w ++ b) = true.
Proof.
  intros Hkw Hw Ha Hb. destruct (keyword_shape Hkw Hw) as [Hne Hword].
  apply cellMatches_reached.
  cbn [classPattern sqlPatterns source]. unfold sqlSource.
  apply match_Alt_some. left. cbn [matchRegex].
  assert (wordBefore (mkState (fold_left (fun _ c => Some c) a None) (w ++ b))
          = false) as ->.
  { unfold wordBefore. cbn [prev]. rewrite prev_of_rev.
    unfold endsInWordChar in Ha. destruct (rev a); [reflexivity|exact Ha]. }
  assert (wordAfter (mkState (fold_left (fun _ c => Some c) a None) (w ++ b))
          = true) as ->.
  { unfold wordAfter. cbn [rest]. destruct w as [|c w]; [congruence|].
    cbn [app]. cbn [forallb] in Hword. apply andb_true_iff in Hword. tauto. }
  cbn [xorb].
  apply AltOf_member with (r := Str (lit kw)).
  - apply in_map_iff. now exists kw.
  - rewrite match_Str_ci by exact Hw. rewrite last_word by trivial.
    unfold wordAfter. cbn [rest]. unfold startsWithWordChar in Hb.
    destruct b; cbn [xorb]; [discriminate|]. rewrite Hb. discriminate.
Qed.

Lemma forallb_same {A : Type} (f g : A -> bool) (l : list A) :
  (forall x, f x = g x) -> forallb f l = forallb g l.
Proof.
  intros E. induction l as [|a l IH]; [reflexivity|].
  cbn [forallb]. now rewrite E, IH.
Qed.

Lemma classWord_matches (c : codeUnit) :
  classMatches true false [CWord] c = isWordChar c.
Proof. unfold classMatches. cbn. now rewrite orb_false_r. Qed.

Lemma classSpace_matches (c : codeUnit) :
  classMatches true false [CSpace] c = isWhiteSpace c.
Proof. unfold classMatches. cbn. now rewrite orb_false_r. Qed.

Lemma white_not_word (c : codeUnit) :
  isWhiteSpace c = true -> isWordChar c = false.
Proof.
  unfold isWhiteSpace, isWordChar, inRange, chr. cbn [N_of_ascii].
  intros Hw. apply not_true_is_false. intros Hc.
  repeat rewrite ?orb_true_iff, ?andb_true_iff, ?N.leb_le, ?N.eqb_eq in Hw.
  repeat rewrite ?orb_true_iff, ?andb_true_iff, ?N.leb_le, ?N.eqb_eq in Hc.
  cbn in Hc. lia.
Qed.

(** X5.  A cell in which [javascript:] occurs, the letters in either case,
    matches the script-like class; so does a cell in which [on] is followed
    by one or more word characters, any white space, and [=]. *)
Theorem script_scheme_or_handler_caught (a b : jsstring) :
  (forall w, sameIgnoringCase w (lit "javascript:") ->
     cellMatches ScriptLike (a ++ w ++ b) = true)
  /\ (forall o w sp,
        sameIgnoringCase o (lit "on") ->
        w <> [] -> forallb isWordChar w = true ->
        forallb isWhiteSpace sp = true ->
        cellMatches ScriptLike (a ++ o ++ w ++ sp ++ lit "=" ++ b) = true).
Proof.
  split.
  - intros w Hw. apply cellMatches_reached.
    cbn [classPattern scriptPatterns source]. unfold scriptSource.
    apply match_Alt_some. right. apply match_Alt_some. left.
    rewrite match_Str_ci by exact Hw. discriminate.
  - intros o w sp Ho Hne Hw Hsp. apply cellMatches_reached.
    cbn [classPattern scriptPatterns source]. unfold scriptSource.
    apply match_Alt_some. right. apply match_Alt_some. right.
    assert (forall o' : option mstate, (exists z, o' = Some z) -> o' <> None)
      as Hsome by (intros o' [z ->]; discriminate).
    apply Hsome. eexists.
    cbn [matchRegex]. rewrite match_Str_ci by exact Ho.
    destruct w as [|c w]; [congruence|]. cbn [forallb] in Hw.
    apply andb_true_iff in Hw. destruct Hw as [Hc Hw].
    cbn [Plus matchRegex rest app]. rewrite classWord_matches, Hc.
    apply (classStar_greedy true false [CWord] w (sp ++ lit "=" ++ b)).
    + rewrite <- Hw. apply forallb_same. exact classWord_matches.
    + destruct sp as [|s0 sp]; [reflexivity|]. cbn [app forallb] in *.
      apply andb_true_iff in Hsp. rewrite classWord_matches.
      now apply white_not_word.
    + apply (classStar_greedy true false [CSpace] sp (lit "=" ++ b)).
      * rewrite <- Hsp. apply forallb_same. exact classSpace_matches.
      * reflexivity.
      * cbn [matchRegex rest lit app]. rewrite N.eqb_refl. reflexivity.
Qed.

Lemma Str_blocked (s : jsstring) (x : mstate) (k : continuation) :
  blockedAt s x = true -> matchRegex true (Str s) x k = None.
Proof.
  unfold blockedAt. destruct s as [|a s]; [discriminate|].
  destruct x as [p [|c t]]; cbn [rest]; intros Hb;
    destruct s; cbn [Str matchRegex rest]; trivial;
    apply negb_true_iff in Hb; now rewrite Hb.
Qed.

Lemma AltOf_none (ic : bool) (rs : list regex) (x : mstate)
    (k : continuation) :
  (forall r, In r rs -> matchRegex ic r x k = None) ->
  matchRegex ic (AltOf rs) x k = None.
Proof.
  induction rs as [|r0 rs IH]; intros Hall.
  - cbn. destruct (rest x); reflexivity.
  - destruct rs as [|r1 rs]; [apply Hall; now left|].
    change (AltOf (r0 :: r1 :: rs)) with (Alt r0 (AltOf (r1 :: rs))).
    cbn [matchRegex]. rewrite (Hall r0) by now left.
    apply IH. intros r Hr. apply Hall. now right.
Qed.

Lemma harmless_blocks (p : option codeUnit) (s : jsstring) :
  match s with c :: _ => harmlessChar c = true | [] => True end ->
  forallb (fun l => blockedAt l (mkState p s)) injectionLiterals = true.
Proof.
  destruct s as [|c t]; [intros _; reflexivity|].
  unfold harmlessChar. intros Hc. apply negb_true_iff in Hc.
  unfold blockedAt. cbn [rest].
  remember (canonicalize true c) as cc eqn:Ecc.
  cbn -[N.eqb] in Hc |- *.
  repeat (apply orb_false_iff in Hc; destruct Hc as [? Hc]).
  rewrite !(N.eqb_sym _ cc).
  repeat match goal with E : (cc =? _)%N = false |- _ => rewrite E; clear E end.
  reflexivity.
Qed.

Lemma literal_blocked (w : string) (x : mstate) (k : continuation) :
  forallb (fun l => blockedAt l x) injectionLiterals = true ->
  In w (sqlKeywords ++ sqlTokens ++ ["<script"; "javascript:"; "on"]%string) ->
  matchRegex true (Str (lit w)) x k = None.
Proof.
  intros Hall Hw. apply Str_blocked. rewrite forallb_forall in Hall.
  apply Hall. unfold injectionLiterals. apply in_map. exact Hw.
Qed.

Lemma harmless_no_match (cls : patternClass) (p : option codeUnit)
    (s : jsstring) :
  match s with c :: _ => harmlessChar c = true | [] => True end ->
  matchRegex true (source (classPattern cls)) (mkState p s) Some = None.
Proof.
  intros Hs. pose proof (harmless_blocks p s Hs) as Hall.
  destruct cls; cbn [classPattern sqlPatterns scriptPatterns source].
  - unfold sqlSource. cbn [matchRegex].
    assert (forall k, matchRegex true
              (AltOf (map (fun w => Str (lit w)) sqlKeywords))
              (mkState p s) k = None) as Hkw.
    { intros k. apply AltOf_none. intros r Hr. apply in_map_iff in Hr.
      destruct Hr as (w & <- & Hw). apply literal_blocked; trivial.
      apply in_or_app. now left. }
    rewrite Hkw. destruct (xorb _ _).
    all: apply AltOf_none; intros r Hr; apply in_map_iff in Hr;
      destruct Hr as (w & <- & Hw); apply literal_blocked; trivial;
      apply in_or_app; right; apply in_or_app; now left.
  - unfold scriptSource. cbn [matchRegex].
    rewrite (@literal_blocked "<script"%string),
      (@literal_blocked "javascript:"%string),
      (@literal_blocked "on"%string); trivial;
      apply in_or_app; right; apply in_or_app; right; cbn; tauto.
Qed.

(** X6.  A cell without any of the letters s, i, u, d, c, a, e, x, j, o
    (in either case) and without any of [-], [;], [/], [*], [<] matches
    neither class: digits, blanks, dots and the remaining letters never
    trip the injection scan. *)
Theorem harmless_cell_passes (cls : patternClass) (cell : jsstring) :
  forallb harmlessChar cell = true -> cellMatches cls cell = false.
Proof.
  intros Hcell. unfold cellMatches, regexTest.
  rewrite classPattern_global. cbn [advance].
  replace (ignoreCase (classPattern cls)) with true by (now destruct cls).
  unfold searchFrom, startOf. cbn [prev rest].
  assert (forall p, searchRest true (source (classPattern cls)) p cell = None)
    as ->; [|reflexivity].
  induction cell as [|c cell IH]; intros p; cbn [searchRest].
  - now rewrite harmless_no_match.
  - cbn [forallb] in Hcell. apply andb_true_iff in Hcell.
    destruct Hcell as [Hc Hcell].
    rewrite harmless_no_match by exact Hc. now apply IH.
Qed.

End Coverage.

(** * Further properties of the sanitiser *)

Section Sanitised.

Lemma trimEnd_last (s : jsstring) :
  match rev (trimEnd s) with
  | c :: _ => isWhiteSpace c = false
  | [] => True
  end.
Proof. unfold trimEnd. rewrite rev_involutive. apply trimStart_head. Qed.

Lemma trimStart_length (s : jsstring) : length (trimStart s) <= length s.
Proof.
  induction s as [|c s IH]; cbn [trimStart]; [lia|].
  destruct (isWhiteSpace c); cbn [length]; lia.
Qed.

Lemma trim_length (s : jsstring) : length (trim s) <= length s.
Proof.
  unfold trim, trimEnd. rewrite length_rev.
  pose proof (trimStart_length (rev (trimStart s))) as H1.
  rewrite length_rev in H1. pose proof (trimStart_length s). lia.
Qed.

(** X7.  What [sanitizeCell] returns has none of the six characters and no
    white space at its start or its end, and is never longer than the
    cell it was given. *)
Theorem sanitizeCell_clean (x : jsstring) :
  cleanCell (sanitizeCell x) /\ length (sanitizeCell x) <= length x.
Proof.
  rewrite sanitizeCell_spec. split; [split; [|split]|].
  - intros c Hc. apply trim_incl, filter_In in Hc.
    destruct Hc as [_ Hc]. now apply negb_true_iff in Hc.
  - unfold trim. apply trimEnd_head, trimStart_head.
  - unfold trim. apply trimEnd_last.
  - pose proof (trim_length (filter (fun c => negb (isStripped c)) x)).
    pose proof (filter_length_le (fun c => negb (isStripped c)) x). lia.
Qed.

(** X8.  [sanitizeCell] leaves a cell as it is exactly when the cell has
    none of the six characters and no white space at its start or its end;
    white space and every other character inside the cell are kept. *)
Theorem sanitizeCell_fixed_iff (x : jsstring) :
  sanitizeCell x = x <-> cleanCell x.
Proof.
  split.
  - intros E. rewrite <- E. apply sanitizeCell_clean.
  - intros (Hstrip & Hhead & Hlast). rewrite sanitizeCell_spec.
    rewrite filter_fixed by (intros c Hc; now rewrite (Hstrip c Hc)).
    unfold trim. rewrite (trimStart_fixed x Hhead).
    unfold trimEnd. rewrite (trimStart_fixed (rev x) Hlast).
    apply rev_involutive.
Qed.

End Sanitised.

(** * The upload component along its events *)

Section UploadFlow.

Context `{HostLocale}.

Lemma processFile_cases (f : File) :
  (processFile f = [tooLargeToast] /\ (MAX_FILE_SIZE < size f)%N)
  \/ (processFile f = [invalidTypeToast] /\ (size f <= MAX_FILE_SIZE)%N
      /\ ~ exists p, name f = p ++ lit ".csv")
  \/ (processFile f = [SetIsValidating true; SetFile (Some f); PapaParse f]
      /\ admitted f).
Proof.
  unfold processFile, admitted.
  destruct (N.ltb_spec MAX_FILE_SIZE (size f)) as [Hbig|Hsmall];
    [left; now split|]. right.
  destruct (endsWith (name f) (lit ".csv")) eqn:E; cbn [negb].
  - right. apply endsWith_spec in E. now repeat split.
  - left. repeat split; trivial. intros Hp. apply endsWith_spec in Hp.
    congruence.
Qed.

(** X9.  [processFile] calls the parser exactly for the files of at most
    10,485,760 bytes whose name ends in [.csv]; it then does nothing else
    than mark the component as validating and remember the file.  Every
    other file gets one destructive toast and nothing more. *)
Theorem processFile_admission (f : File) :
  (admitted f ->
   processFile f = [SetIsValidating true; SetFile (Some f); PapaParse f])
  /\ (~ admitted f ->
      exists title description,
        processFile f = [Toast title description true])
  /\ (forall g, In (PapaParse g) (processFile f) <-> g = f /\ admitted f).
Proof.
  destruct (processFile_cases f)
    as [[E Hbig]|[(E & Hsmall & Hext)|[E Hadm]]]; rewrite E.
  - assert (~ admitted f) as Hn by (intros [Hs _]; lia).
    split; [tauto|]. split.
    + intros _. unfold tooLargeToast. eauto.
    + intros g. split; [intros [D|[]]; discriminate D|tauto].
  - assert (~ admitted f) as Hn by (intros [_ Hp]; tauto).
    split; [tauto|]. split.
    + intros _. unfold invalidTypeToast. eauto.
    + intros g. split; [intros [D|[]]; discriminate D|tauto].
  - split; [reflexivity|]. split; [tauto|].
    intros g. split.
    + intros [D|[D|[D|[]]]]; try discriminate D. injection D as <-.
      now split.
    + intros [-> _]. cbn. tauto.
Qed.

Lemma invalid_has_violation (data : list (list jsstring)) :
  isValid (validateCSVContent data) = false ->
  exists v rest, errors (validateCSVContent data) = v :: rest.
Proof.
  destruct data as [|row data].
  - intros _. now exists emptyMessage, [].
  - rewrite validate_rows by discriminate. cbn [isValid errors].
    destruct (_ ++ _ ++ _) as [|v rest]; [discriminate|]. intros _.
    now exists v, rest.
Qed.

(** X10.  When a parsed table fails validation, the [complete] callback
    raises one destructive toast that carries the first violation of the
    report (there always is one), clears the validating flag and forgets
    the file; it stores no preview.  For a table over the row limit that
    first violation is the row-limit message, whatever else is wrong. *)
Theorem parseComplete_invalid (data : list (list jsstring)) :
  isValid (validateCSVContent data) = false ->
  (exists v,
     nth_error (errors (validateCSVContent data)) 0 = Some v
     /\ parseComplete data
        = [Toast (lit "Security validation failed") (Some v) true;
           SetIsValidating false; SetFile None])
  /\ (forall p, ~ In (SetPreview p) (parseComplete data))
  /\ ((MAX_ROWS < N.of_nat (length data))%N ->
      nth_error (errors (validateCSVContent data)) 0 = Some rowLimitMessage).
Proof.
  intros Hinv. unfold parseComplete. rewrite Hinv. cbn [negb].
  destruct (invalid_has_violation data Hinv) as (v & rest & E).
  split; [|split].
  - exists v. rewrite E. now split.
  - intros p [D|[D|[D|[]]]]; discriminate D.
  - intros Hrows. rewrite validate_rows_errors
      by (intros ->; cbn in Hrows; lia).
    unfold rowLimitViolations. apply N.ltb_lt in Hrows. now rewrite Hrows.
Qed.

Lemma slice_0_n {A : Type} (n : nat) (l : list A) :
  slice 0 (Z.of_nat n) l = firstn n l.
Proof.
  unfold slice. cbn [Z.ltb Z.compare].
  assert ((Z.of_nat n <? 0)%Z = false) as -> by (apply Z.ltb_ge; lia).
  rewrite (Z.min_l 0) by lia. cbn [Z.to_nat skipn]. rewrite Z.sub_0_r.
  destruct (Z.min_spec (Z.of_nat n) (Z.of_nat (length l)))
    as [[Hlt ->]|[Hge ->]]; rewrite Z.max_l, Nat2Z.id by lia.
  - reflexivity.
  - rewrite firstn_all. symmetry. apply firstn_all2. lia.
Qed.

Lemma firstn_incl {A : Type} (n : nat) (l : list A) (a : A) :
  In a (firstn n l) -> In a l.
Proof.
  intros Hin. rewrite <- (firstn_skipn n l). apply in_app_iff. now left.
Qed.

(** A preview of a validated table has at most five rows, and its cells
    are clean. *)
Lemma previewOfValid_shape (p : list (list jsstring)) :
  previewOfValid p ->
  length p <= 5
  /\ forall row cell, In row p -> In cell row -> cleanCell cell.
Proof.
  intros (data & _ & ->). rewrite (slice_0_n 5). split.
  - rewrite length_firstn. lia.
  - intros row cell Hrow Hcell. apply firstn_incl in Hrow.
    apply in_map_iff in Hrow. destruct Hrow as (raw & <- & _).
    apply in_map_iff in Hcell. destruct Hcell as (x & <- & _).
    apply sanitizeCell_clean.
Qed.

Lemma processFile_keeps (st : uploadState) (f : File) :
  uploadInvariant st -> uploadInvariant (applyEffects st (processFile f)).
Proof.
  intros [Hf Hp].
  destruct (processFile_cases f) as [[E _]|[(E & _)|[E Hadm]]]; rewrite E;
    cbn; split; trivial.
  intros g Hg. now injection Hg as <-.
Qed.

Lemma uploadStep_keeps (st : uploadState) (ev : uploadEvent) :
  uploadInvariant st ->
  uploadInvariant (fst (uploadStep st ev))
  /\ forall f p, In (OnUpload f p) (snd (uploadStep st ev)) ->
       admitted f /\ previewOfValid p.
Proof.
  intros Hinv. pose proof Hinv as [Hf Hp].
  assert (forall st' es f p,
            ~ In (OnUpload f p) (snd (runEffects st' es))) as Hrun.
  { intros st' es f p Hin. cbn in Hin. apply in_map_iff in Hin.
    destruct Hin as (e & D & _). discriminate D. }
  destruct ev; cbn [uploadStep].
  - unfold handleDrop. destruct (nth_error files 0) as [f|].
    + split; [|intros f' p Hin; now apply Hrun in Hin].
      cbn [runEffects fst]. apply processFile_keeps. now split.
    + split; [now split|intros f p []].
  - unfold handleFileInput. destruct files as [fs|];
      [destruct (nth_error fs 0) as [f|]|].
    + split; [|intros f' p Hin; now apply Hrun in Hin].
      cbn [runEffects fst]. now apply processFile_keeps.
    + split; [exact Hinv|intros f p []].
    + split; [exact Hinv|intros f p []].
  - split; [now split|intros f p []].
  - split; [now split|intros f p []].
  - split; [|intros f' p Hin; now apply Hrun in Hin].
    cbn [runEffects fst]. unfold parseComplete.
    destruct (isValid (validateCSVContent data)) eqn:Hv; cbn; split; trivial;
      try discriminate.
    intros p Hq. injection Hq as <-. now exists data.
  - split; [|intros f' p Hin; now apply Hrun in Hin].
    cbn. split; [discriminate|exact Hp].
  - split; [exact Hinv|]. cbn [snd]. unfold handleUpload.
    destruct (file st) as [f|]; [|intros f' p []].
    destruct (preview st) as [p|]; [|intros f' p' []].
    intros f' p' [D|[]]. injection D as <- <-. split; auto.
  - split; [|intros f p []]. cbn. split; discriminate.
  - split; [exact Hinv|]. intros f p [D|[]]. discriminate D.
Qed.

(** X11.  Whatever events the component receives and in whatever order,
    every call of [onUpload] carries a file that passed the size and
    extension guards and a preview that is the sanitised first rows of some
    table that passed validation: at most five rows, every cell free of
    the six characters and of white space at its ends. *)
Theorem onUpload_only_validated (evs : list uploadEvent) (f : File)
    (p : list (list jsstring)) :
  In (OnUpload f p) (snd (uploadRun initialUpload evs)) ->
  admitted f /\ previewOfValid p /\ length p <= 5
  /\ forall row cell, In row p -> In cell row -> cleanCell cell.
Proof.
  assert (forall st, uploadInvariant st ->
            In (OnUpload f p) (snd (uploadRun st evs)) ->
            admitted f /\ previewOfValid p) as Hgen.
  { induction evs as [|ev evs IH]; intros st Hinv Hin; [destruct Hin|].
    cbn [uploadRun] in Hin.
    destruct (uploadStep_keeps ev Hinv) as [Hnext Hout].
    destruct (uploadStep st ev) as [st1 out1].
    destruct (uploadRun st1 evs) as [st2 out2] eqn:Erun.
    cbn [snd] in Hin. apply in_app_iff in Hin. destruct Hin as [Hin|Hin].
    - now apply Hout.
    - apply (IH st1); [exact Hnext|]. now rewrite Erun. }
  intros Hin. destruct (Hgen initialUpload) as [Hadm Hprev]; trivial.
  - split; cbn; discriminate.
  - destruct (previewOfValid_shape Hprev). tauto.
Qed.

(** X12.  The ordinary course: a file that passes the guards is selected,
    the parser delivers a table that passes validation, the user clicks
    upload; [onUpload] is then called once, with that file and the
    sanitised first five rows of the table. *)
Theorem upload_course (f : File) (data : list (list jsstring)) :
  admitted f -> isValid (validateCSVContent data) = true ->
  filter (fun o => match o with Performed _ => false | _ => true end)
    (snd (uploadRun initialUpload
            [FileChosen (Some [f]); ParseCompleted data; UploadClicked]))
  = [OnUpload f (firstn 5 (map (fun row => map sanitizeCell row) data))].
Proof.
  intros Hadm Hvalid. cbn [uploadRun uploadStep handleFileInput nth_error].
  rewrite (proj1 (processFile_admission f) Hadm).
  unfold parseComplete. rewrite Hvalid. cbn. now rewrite (slice_0_n 5).
Qed.

(** X13.  The callbacks of the parser are not tied to the file they were
    started for: when the [complete] callback of a first file runs after
    that file was cleared and a second one selected, a click on upload
    hands [onUpload] the second file with the preview of the first. *)
Theorem stale_preview (a b : File) (dataA : list (list jsstring)) :
  admitted a -> admitted b -> isValid (validateCSVContent dataA) = true ->
  filter (fun o => match o with Performed _ => false | _ => true end)
    (snd (uploadRun initialUpload
            [FileChosen (Some [a]); ClearClicked; FileChosen (Some [b]);
             ParseCompleted dataA; UploadClicked]))
  = [OnUpload b (firstn 5 (map (fun row => map sanitizeCell row) dataA))].
Proof.
  intros Ha Hb Hvalid. cbn [uploadRun uploadStep handleFileInput nth_error].
  rewrite (proj1 (processFile_admission a) Ha),
    (proj1 (processFile_admission b) Hb).
  unfold parseComplete. rewrite Hvalid. cbn. now rewrite (slice_0_n 5).
Qed.

(** X14.  After a parse error, and after a table that fails validation,
    no file is selected any more, so a click on upload calls nothing. *)
Theorem rejected_not_uploadable (st : uploadState) :
  (forall message,
     handleUpload (fst (uploadStep st (ParseFailed message))) = []
     /\ snd (uploadStep st (ParseFailed message))
        = [Performed (Toast (lit "Parse error") (Some message) true);
           Performed (SetIsValidating false); Performed (SetFile None)])
  /\ (forall data, isValid (validateCSVContent data) = false ->
        handleUpload (fst (uploadStep st (ParseCompleted data))) = []).
Proof.
  split.
  - intros message. split; reflexivity.
  - intros data Hinv. cbn [uploadStep runEffects fst].
    unfold parseComplete. rewrite Hinv. reflexivity.
Qed.

End UploadFlow.

(** * The chat component *)

Section Chat.

Import ChatInterface.

Lemma trimStart_nil (s : jsstring) :
  trimStart s = [] <-> forallb isWhiteSpace s = true.
Proof.
  induction s as [|c s IH]; cbn [trimStart forallb]; [tauto|].
  destruct (isWhiteSpace c); cbn [andb]; [exact IH|].
  split; discriminate.
Qed.

(** A string trims to the empty string exactly when it is empty or all
    white space. *)
Lemma trim_nil (s : jsstring) :
  trim s = [] <-> forallb isWhiteSpace s = true.
Proof.
  unfold trim, trimEnd. split.
  - intros E. apply (f_equal (@rev _)) in E. rewrite rev_involutive in E.
    cbn [rev] in E. apply trimStart_nil in E.
    pose proof (trimStart_head s) as Hhead.
    destruct (trimStart s) as [|c t] eqn:Et; [now apply trimStart_nil|].
    rewrite forallb_forall in E.
    rewrite (E c) in Hhead; [discriminate|].
    apply in_rev. rewrite rev_involutive. now left.
  - intros Hs. apply trimStart_nil in Hs. now rewrite Hs.
Qed.

(** X15.  [handleSend] does nothing when the input is empty or all white
    space.  Otherwise it appends one user message whose content is the
    input as typed, surrounding white space included, empties the input,
    sets the loading flag, and schedules the generic reply for one second
    later; it does so whether or not a reply is still awaited. *)
Theorem handleSend_blank_or_sent (now stamp : N) (st : chatState) :
  (forallb isWhiteSpace (input st) = true ->
   handleSend now stamp st = unhandled st)
  /\ (forallb isWhiteSpace (input st) = false ->
      handleSend now stamp st
      = mkHandled
          (mkChat (messages st
                   ++ [mkMessage (lit "msg-" ++ numberToString now) user
                         (input st) stamp])
             [] true (showUpload st))
          [] [(1000%N, ReplyToQuestion)]).
Proof.
  unfold handleSend. split; intros Hws.
  - apply trim_nil in Hws. now rewrite Hws.
  - destruct (trim (input st)) as [|c t] eqn:E; [|reflexivity].
    apply trim_nil in E. congruence.
Qed.

(** X16.  A key press sends a message exactly when the key is [Enter],
    shift is not held and the input is not blank. *)
Theorem handleKeyPress_sends (key : jsstring) (shiftKey : bool)
    (now stamp : N) (st : chatState) :
  messages (next (handleKeyPress key shiftKey now stamp st)) <> messages st
  <-> key = lit "Enter" /\ shiftKey = false
      /\ forallb isWhiteSpace (input st) = false.
Proof.
  unfold handleKeyPress.
  destruct (jsstringEqb key (lit "Enter")) eqn:Ek; cbn [andb].
  - apply jsstringEqb_eq in Ek. destruct shiftKey; cbn [negb].
    + cbn. split; [congruence|]. intros (_ & D & _). discriminate D.
    + destruct (forallb isWhiteSpace (input st)) eqn:Ews.
      * rewrite (proj1 (handleSend_blank_or_sent now stamp st) Ews). cbn.
        split; [congruence|]. intros (_ & _ & D). discriminate D.
      * rewrite (proj2 (handleSend_blank_or_sent now stamp st) Ews). cbn.
        split; [now repeat split|]. intros _ E.
        apply (f_equal (@length _)) in E. rewrite length_app in E.
        cbn in E. lia.
  - assert (key <> lit "Enter") as Hk.
    { intros Hk. apply jsstringEqb_eq in Hk. congruence. }
    cbn. split; [congruence|]. intros (E & _). contradiction.
Qed.

Lemma lit_digits_tail (d1 d2 t : jsstring) (x : codeUnit) :
  forallb isDigit d1 = true -> forallb isDigit d2 = true ->
  isDigit x = false -> d1 = d2 ++ x :: t -> False.
Proof.
  revert d2. induction d1 as [|a d1 IH]; intros [|b d2] H1 H2 Hx E;
    cbn in *; try discriminate E.
  - injection E as -> _. apply andb_true_iff in H1. destruct H1. congruence.
  - injection E as -> E. apply andb_true_iff in H1. apply andb_true_iff in H2.
    apply (IH d2); tauto.
Qed.

(** X17.  The identifier of a message tells its role and the clock
    reading it was made from: two user messages, or two replies, share an
    identifier exactly when they were made at the same millisecond, and a
    reply never has the identifier of a user message. *)
Theorem message_ids (n m : N) :
  (userMessageId n = userMessageId m <-> n = m)
  /\ (aiMessageId n = aiMessageId m <-> n = m)
  /\ aiMessageId n <> userMessageId m.
Proof.
  unfold userMessageId, aiMessageId. split; [|split].
  - split; [|now intros ->]. intros E. apply app_inv_head in E.
    now apply numberToString_inj.
  - split; [|now intros ->]. intros E. apply app_inv_head in E.
    apply app_inv_tail in E. now apply numberToString_inj.
  - intros E. apply app_inv_head in E. symmetry in E.
    apply (@lit_digits_tail (numberToString m) (numberToString n)
             (lit "ai") (chr "-"));
      trivial; apply numberToString_digits.
Qed.

Lemma join_chars (sep : jsstring) (l : list jsstring) (c : codeUnit) :
  In c (join sep l) -> In c sep \/ exists x, In x l /\ In c x.
Proof.
  induction l as [|x l IH]; cbn [join]; [intros []|].
  destruct l as [|y l].
  - intros Hc. right. exists x. split; [now left|exact Hc].
  - rewrite !in_app_iff. intros [Hc|[Hc|Hc]].
    + right. exists x. split; [now left|exact Hc].
    + now left.
    + destruct (IH Hc) as [Hs|(z & Hz & Hcz)]; [now left|].
      right. exists z. split; [now right|exact Hcz].
Qed.

(** X18.  The text an upload puts under [Preview:] is made of the first
    three rows of the preview, fewer if it has fewer, the cells of a row
    joined by a comma and a blank and the rows by line feeds.  Fed with
    the preview of the upload component it shows the first three sanitised
    rows of the table, and none of the six characters occurs in it. *)
Theorem previewText_rows (table : list (list jsstring)) :
  (forall p, previewText p
             = join newline (map (join (lit ", ")) (firstn 3 p)))
  /\ previewText (slice 0 5 (map (fun row => map sanitizeCell row) table))
     = join newline
         (map (join (lit ", "))
            (firstn 3 (map (fun row => map sanitizeCell row) table)))
  /\ forall c,
       In c (previewText
               (slice 0 5 (map (fun row => map sanitizeCell row) table))) ->
       isStripped c = false.
Proof.
  assert (forall p, previewText p
                    = join newline (map (join (lit ", ")) (firstn 3 p)))
    as Hrows by (intros p; unfold previewText; now rewrite (slice_0_n 3)).
  assert (previewText (slice 0 5 (map (fun row => map sanitizeCell row) table))
          = join newline
              (map (join (lit ", "))
                 (firstn 3 (map (fun row => map sanitizeCell row) table))))
    as Hcomp by (rewrite Hrows, (slice_0_n 5), firstn_firstn; reflexivity).
  split; [exact Hrows|]. split; [exact Hcomp|].
  intros c Hc. rewrite Hcomp in Hc. apply join_chars in Hc.
  destruct Hc as [[<-|[]]|(line & Hline & Hc)]; [reflexivity|].
  apply in_map_iff in Hline. destruct Hline as (row & <- & Hrow).
  apply join_chars in Hc.
  destruct Hc as [[<-|[<-|[]]]|(cell & Hcell & Hc)]; try reflexivity.
  apply firstn_incl in Hrow. apply in_map_iff in Hrow.
  destruct Hrow as (raw & <- & _). apply in_map_iff in Hcell.
  destruct Hcell as (x & <- & _).
  now apply (proj1 (proj1 (sanitizeCell_clean x))).
Qed.

(** X19.  No event removes or alters a message: along any sequence of
    events the messages held before are a prefix of those held after, and
    at most one message is added per event. *)
Theorem messages_only_grow (evs : list chatEvent) (st : chatState) :
  exists added,
    messages (fold_left chatStep evs st) = messages st ++ added
    /\ length added <= length evs.
Proof.
  revert st. induction evs as [|ev evs IH]; intros st; cbn [fold_left].
  - exists []. rewrite app_nil_r. split; [reflexivity|cbn; lia].
  - destruct (IH (chatStep st ev)) as (added & E & Hlen).
    assert (exists one, messages (chatStep st ev) = messages st ++ one
                        /\ length one <= 1) as (one & E1 & H1).
    { destruct ev; cbn [chatStep].
      - exists []; rewrite app_nil_r; split; [reflexivity|cbn; lia].
      - unfold handleSend. destruct (trim (input st)).
        + exists []; rewrite app_nil_r; split; [reflexivity|cbn; lia].
        + eexists. split; [reflexivity|cbn; lia].
      - unfold handleKeyPress, handleSend.
        destruct (_ && _); [destruct (trim (input st))|].
        + exists []; rewrite app_nil_r; split; [reflexivity|cbn; lia].
        + eexists. split; [reflexivity|cbn; lia].
        + exists []; rewrite app_nil_r; split; [reflexivity|cbn; lia].
      - eexists. split; [reflexivity|cbn; lia].
      - destruct r; eexists; (split; [reflexivity|cbn; lia]).
      - exists []; rewrite app_nil_r; split; [reflexivity|cbn; lia].
      - exists []; rewrite app_nil_r; split; [reflexivity|cbn; lia]. }
    exists (one ++ added). rewrite E, E1, <- app_assoc, length_app.
    split; [reflexivity|cbn [length]; lia].
Qed.

End Chat.

(** * The session list *)

Section Sessions.

Import Dashboard.

Lemma dashStep_listed (st : dashState) (ev : dashEvent) :
  currentListed st -> currentListed (dashStep st ev).
Proof.
  unfold currentListed. intros Hst. destruct ev; cbn [dashStep].
  - cbn. intros i E. injection E as <-. eexists. split; [now left|reflexivity].
  - unfold selectSession.
    destruct (nth_error (sessions st) i) as [session|] eqn:Ei; [|exact Hst].
    cbn. intros j E. injection E as <-. exists session.
    split; [now apply nth_error_In in Ei|reflexivity].
  - exact Hst.
Qed.

Lemma dashStep_sessions (st : dashState) (ev : dashEvent) :
  length (sessions (dashStep st ev))
  = length (sessions st) + newChats [ev].
Proof.
  destruct ev; cbn; try lia.
  unfold selectSession. destruct (nth_error (sessions st) i); cbn; lia.
Qed.

(** X20.  Along any sequence of new chats, clicks on listed sessions and
    sidebar toggles, the current session is none or one that is in the
    list, and the list has one session per new chat: none is ever
    removed. *)
Theorem current_session_listed (evs : list dashEvent) :
  (forall i,
     currentSessionId (fold_left dashStep evs initialDash) = Some i ->
     exists session,
       In session (sessions (fold_left dashStep evs initialDash))
       /\ id session = i)
  /\ length (sessions (fold_left dashStep evs initialDash)) = newChats evs.
Proof.
  assert (forall st, currentListed st ->
            currentListed (fold_left dashStep evs st)
            /\ length (sessions (fold_left dashStep evs st))
               = length (sessions st) + newChats evs) as Hgen.
  { induction evs as [|ev evs IH]; intros st Hst; cbn [fold_left].
    - split; [exact Hst|]. cbn. lia.
    - destruct (IH (dashStep st ev) (dashStep_listed ev Hst)) as [Hl Hn].
      split; [exact Hl|]. rewrite Hn, dashStep_sessions.
      unfold newChats. cbn [filter]. destruct ev; cbn [length]; lia. }
  destruct (Hgen initialDash) as [Hl Hn].
  - intros i D. discriminate D.
  - split; [exact Hl|exact Hn].
Qed.

(** X21.  Two new chats in a row put two sessions in front of the list,
    the later one first and current; the two have the same identifier
    exactly when they were created at the same millisecond. *)
Theorem new_session_ids (now now' : N) (iso iso' : jsstring)
    (st : dashState) :
  exists later earlier,
    sessions (handleNewChat now' iso' (handleNewChat now iso st))
    = later :: earlier :: sessions st
    /\ currentSessionId (handleNewChat now' iso' (handleNewChat now iso st))
       = Some (id later)
    /\ (id later = id earlier <-> now' = now).
Proof.
  eexists. eexists. split; [reflexivity|]. split; [reflexivity|].
  cbn [id]. split.
  - intros E. apply app_inv_head in E. now apply numberToString_inj.
  - now intros ->.
Qed.

End Sessions.

(** * The further properties on concrete inputs, under the [en-US] locale *)

Section FurtherInstances.

#[local] Existing Instance enUS.

Import ChatInterface.

Lemma admitted_data_csv : admitted (mkFile (lit "data.csv") 2048).
Proof.
  split; [vm_compute; discriminate|]. now exists (lit "data").
Defined.

Lemma valid_people_table :
  isValid (validateCSVContent
             [[lit "id"; lit "name"]; [lit "1"; lit "O'Brien"]]) = true.
Proof. vm_compute. reflexivity. Defined.

(** X2 on a table with an ill-formed header and a semicolon in a cell. *)
Lemma report_sound_witness :
  (lit "Potential SQL injection detected at row 2, column 1"
   = rowLimitMessage
   /\ (MAX_ROWS < N.of_nat (length [[lit "a-b"]; [lit "x;y"]]))%N)
  \/ (exists j h, nth_error (hd [] [[lit "a-b"]; [lit "x;y"]]) j = Some h
                  /\ headerWellFormed h = false
                  /\ lit "Potential SQL injection detected at row 2, column 1"
                     = headerMessage j h)
  \/ (exists cls r c row cell,
        nth_error [[lit "a-b"]; [lit "x;y"]] r = Some row
        /\ nth_error row c = Some cell /\ cellMatches cls cell = true
        /\ lit "Potential SQL injection detected at row 2, column 1"
           = classMessage cls r c).
Proof.
  apply (@report_sound enUS [[lit "a-b"]; [lit "x;y"]]).
  - discriminate.
  - vm_compute. tauto.
Defined.

(** X3 on a cell with [XP_] inside a word. *)
Lemma sql_token_caught_witness :
  cellMatches SqlLike (lit "my" ++ lit "XP_" ++ lit "cmdshell") = true.
Proof.
  apply (@sql_token_caught "xp_"%string).
  - vm_compute. tauto.
  - vm_compute. reflexivity.
Defined.

(** X4 on a cell with [Select] between blanks. *)
Lemma sql_keyword_caught_witness :
  cellMatches SqlLike (lit "please " ++ lit "Select" ++ lit " all") = true.
Proof.
  apply (@sql_keyword_caught "SELECT"%string).
  - vm_compute. tauto.
  - vm_compute. reflexivity.
  - vm_compute. reflexivity.
  - vm_compute. reflexivity.
Defined.

(** X5 on [JavaScript:] and on [conversion =]. *)
Lemma script_scheme_or_handler_caught_witness :
  cellMatches ScriptLike (lit "see " ++ lit "JavaScript:" ++ lit "void(0)")
  = true
  /\ cellMatches ScriptLike
       (lit "c" ++ lit "on" ++ lit "version" ++ lit " " ++ lit "=" ++ lit "3")
     = true.
Proof.
  split.
  - apply (proj1 (script_scheme_or_handler_caught (lit "see ")
                    (lit "void(0)"))).
    vm_compute. reflexivity.
  - apply (proj2 (script_scheme_or_handler_caught (lit "c") (lit "3"))).
    + vm_compute. reflexivity.
    + discriminate.
    + vm_compute. reflexivity.
    + vm_compute. reflexivity.
Defined.

(** X6 on a decimal number and on a word. *)
Lemma harmless_cell_passes_witness :
  cellMatches SqlLike (lit "1024.75") = false
  /\ cellMatches ScriptLike (lit "Thymy hymn") = false.
Proof.
  split; apply harmless_cell_passes; vm_compute; reflexivity.
Defined.

(** X9 on a small CSV file and on a text file. *)
Lemma processFile_admission_witness :
  processFile (mkFile (lit "data.csv") 2048)
  = [SetIsValidating true; SetFile (Some (mkFile (lit "data.csv") 2048));
     PapaParse (mkFile (lit "data.csv") 2048)]
  /\ exists title description,
       processFile (mkFile (lit "notes.txt") 2048)
       = [Toast title description true].
Proof.
  split.
  - apply (proj1 (processFile_admission (mkFile (lit "data.csv") 2048))).
    exact admitted_data_csv.
  - apply (proj1 (proj2
             (processFile_admission (mkFile (lit "notes.txt") 2048)))).
    intros [_ Hp]. apply endsWith_spec in Hp. vm_compute in Hp.
    discriminate Hp.
Defined.

(** X10 on a table with a semicolon in a cell. *)
Lemma parseComplete_invalid_witness :
  exists v,
    nth_error (errors (validateCSVContent [[lit "id"]; [lit "x;y"]])) 0
    = Some v
    /\ parseComplete [[lit "id"]; [lit "x;y"]]
       = [Toast (lit "Security validation failed") (Some v) true;
          SetIsValidating false; SetFile None].
Proof.
  apply (proj1 (@parseComplete_invalid enUS [[lit "id"]; [lit "x;y"]]
                  ltac:(vm_compute; reflexivity))).
Defined.

(** X11 on a selection followed by its table and a click on upload. *)
Lemma onUpload_only_validated_witness :
  admitted (mkFile (lit "data.csv") 2048)
  /\ length [[lit "id"; lit "name"]; [lit "1"; lit "OBrien"]] <= 5.
Proof.
  destruct (@onUpload_only_validated enUS
              [FileChosen (Some [mkFile (lit "data.csv") 2048]);
               ParseCompleted
                 [[lit "id"; lit "name"]; [lit "1"; lit "O'Brien"]];
               UploadClicked]
              (mkFile (lit "data.csv") 2048)
              [[lit "id"; lit "name"]; [lit "1"; lit "OBrien"]])
    as (Ha & _ & Hlen & _).
  - vm_compute. tauto.
  - split; [exact Ha|exact Hlen].
Defined.

(** X12 on the same file and table. *)
Lemma upload_course_witness :
  filter (fun o => match o with Performed _ => false | _ => true end)
    (snd (uploadRun initialUpload
            [FileChosen (Some [mkFile (lit "data.csv") 2048]);
             ParseCompleted
               [[lit "id"; lit "name"]; [lit "1"; lit "O'Brien"]];
             UploadClicked]))
  = [OnUpload (mkFile (lit "data.csv") 2048)
       (firstn 5 (map (fun row => map sanitizeCell row)
                    [[lit "id"; lit "name"]; [lit "1"; lit "O'Brien"]]))].
Proof.
  apply (@upload_course enUS).
  - exact admitted_data_csv.
  - exact valid_people_table.
Defined.

(** X13 with a second file selected before the table of the first
    arrives. *)
Lemma stale_preview_witness :
  filter (fun o => match o with Performed _ => false | _ => true end)
    (snd (uploadRun initialUpload
            [FileChosen (Some [mkFile (lit "data.csv") 2048]); ClearClicked;
             FileChosen (Some [mkFile (lit "other.csv") 512]);
             ParseCompleted
               [[lit "id"; lit "name"]; [lit "1"; lit "O'Brien"]];
             UploadClicked]))
  = [OnUpload (mkFile (lit "other.csv") 512)
       (firstn 5 (map (fun row => map sanitizeCell row)
                    [[lit "id"; lit "name"]; [lit "1"; lit "O'Brien"]]))].
Proof.
  apply (@stale_preview enUS).
  - exact admitted_data_csv.
  - split; [vm_compute; discriminate|]. now exists (lit "other").
  - exact valid_people_table.
Defined.

(** X14 on a table without rows, delivered while a file is selected. *)
Lemma rejected_not_uploadable_witness :
  handleUpload
    (fst (uploadStep
            (mkUpload false (Some (mkFile (lit "data.csv") 2048)) None true)
            (ParseCompleted [])))
  = [].
Proof.
  apply (proj2 (@rejected_not_uploadable enUS
                  (mkUpload false (Some (mkFile (lit "data.csv") 2048))
                     None true))).
  vm_compute. reflexivity.
Defined.

(** X15 on an input of blanks and on a padded question. *)
Lemma handleSend_blank_or_sent_witness :
  handleSend 1700000000000 1700000000001 (mkChat [] (lit "   ") false false)
  = unhandled (mkChat [] (lit "   ") false false)
  /\ content
       (nth 0 (messages
                 (next (handleSend 1700000000000 1700000000001
                          (mkChat [] (lit " hi ") true false))))
          (mkMessage [] user [] 0))
     = lit " hi ".
Proof.
  split.
  - apply (proj1 (handleSend_blank_or_sent 1700000000000 1700000000001
                    (mkChat [] (lit "   ") false false))).
    vm_compute. reflexivity.
  - rewrite (proj2 (handleSend_blank_or_sent 1700000000000 1700000000001
                      (mkChat [] (lit " hi ") true false)));
      vm_compute; reflexivity.
Defined.

End FurtherInstances.
